(** * Learning-rate schedules of [lib/utils.py]

    A shallow embedding of the schedule classes
    ([LearningRateSchedule], [ConstantLearningRateSchedule],
    [StepLearningRateSchedule], [WarmupLearningRateSchedule]) and of the
    factory [get_learning_rate_schedules], followed by the properties the
    specification states about them.

    Modelling conventions.
    - A Python value that a JSON configuration can put into a schedule is
      [None], an [int], a [float] or a [str].  An [int] is a [Z]; a [float]
      is the rational it denotes, so arithmetic is exact (rounding, overflow
      and the non-finite floats are outside the model).
    - An exception is a value of [exn]; an expression that can raise has a
      type [result A].
    - A method is a function from the instance it is called on to a result
      and the instance afterwards, so that what a call does to [self] is
      part of its meaning.
    - A dict with string keys is a [gmap string _]; subscripting a missing
      key raises [KeyError]. *)

From Stdlib Require Import ZArith QArith Qround Qpower Lia Lqa Ascii.
From stdpp Require Import gmap strings list pretty.

Local Open Scope Z_scope.

(** ** Values and exceptions *)

Inductive val : Type :=
  | VNone
  | VInt (z : Z)
  | VFloat (q : Q)
  | VStr (s : string).

(** [Exception template arg] stands for [Exception(template.format(arg))]. *)
Inductive exn : Type :=
  | KeyError (key : string)
  | TypeError
  | ZeroDivisionError
  | Exception (template : string) (arg : val).

Inductive result (A : Type) : Type :=
  | Ok (a : A)
  | Raise (e : exn).

Arguments Ok {A} a.
Arguments Raise {A} e.

#[global] Instance result_ret : MRet result := fun A a => Ok a.
#[global] Instance result_bind : MBind result := fun A B k r =>
  match r with
  | Ok a => k a
  | Raise e => Raise e
  end.

(** The number a numeric value denotes. *)
Definition numeric (v : val) : option Q :=
  match v with
  | VInt z => Some (inject_Z z)
  | VFloat q => Some q
  | _ => None
  end.

(** ** The operators the schedules use *)

Module Py.

(** [int op int] is an [int]; any other pair of numbers gives a [float]. *)
Definition arith (fz : Z -> Z -> Z) (fq : Q -> Q -> Q) (a b : val)
  : result val :=
  match a, b with
  | VInt x, VInt y => Ok (VInt (fz x y))
  | VInt x, VFloat y => Ok (VFloat (fq (inject_Z x) y))
  | VFloat x, VInt y => Ok (VFloat (fq x (inject_Z y)))
  | VFloat x, VFloat y => Ok (VFloat (fq x y))
  | _, _ => Raise TypeError
  end.

(** [s * n] for a string: [n] copies of [s], none when [n <= 0]. *)
Fixpoint repeat_str (s : string) (n : nat) : string :=
  match n with
  | O => EmptyString
  | S n' => (s ++ repeat_str s n')%string
  end.

(** [a + b] *)
Definition add (a b : val) : result val :=
  match a, b with
  | VStr s, VStr t => Ok (VStr (s ++ t))
  | _, _ => arith Z.add Qplus a b
  end.

(** [a - b] *)
Definition sub (a b : val) : result val := arith Z.sub Qminus a b.

(** [a * b] *)
Definition mul (a b : val) : result val :=
  match a, b with
  | VStr s, VInt n => Ok (VStr (repeat_str s (Z.to_nat n)))
  | VInt n, VStr s => Ok (VStr (repeat_str s (Z.to_nat n)))
  | _, _ => arith Z.mul Qmult a b
  end.

(** [a / b]: true division, a [float] also for two [int]s. *)
Definition truediv (a b : val) : result val :=
  match numeric a, numeric b with
  | Some x, Some y =>
      if Qeq_bool y 0 then Raise ZeroDivisionError
      else Ok (VFloat (x / y))
  | _, _ => Raise TypeError
  end.

(** [a // b]: the floor of the quotient, an [int] for two [int]s and a
    [float] with an integral value otherwise. *)
Definition floordiv (a b : val) : result val :=
  match a, b with
  | VInt x, VInt y =>
      if Z.eqb y 0 then Raise ZeroDivisionError
      else Ok (VInt (x / y))
  | _, _ =>
      match numeric a, numeric b with
      | Some x, Some y =>
          if Qeq_bool y 0 then Raise ZeroDivisionError
          else Ok (VFloat (inject_Z (Qfloor (x / y))))
      | _, _ => Raise TypeError
      end
  end.

(** [a ** b] for an exponent of integral value, the only kind [//]
    produces.  A negative power of zero raises; a negative power of an
    [int] is a [float]. *)
Definition pow (a b : val) : result val :=
  match a, b with
  | VInt x, VInt n =>
      if Z.leb 0 n then Ok (VInt (x ^ n))
      else if Z.eqb x 0 then Raise ZeroDivisionError
      else Ok (VFloat (inject_Z x ^ n))
  | _, _ =>
      match numeric a, numeric b with
      | Some x, Some y =>
          let n := Qfloor y in
          if Qeq_bool x 0 && Z.ltb n 0 then Raise ZeroDivisionError
          else Ok (VFloat (x ^ n))
      | _, _ => Raise TypeError
      end
  end.

(** [a > b]: numbers by value, strings in the order of their characters. *)
Definition gt (a b : val) : result bool :=
  match a, b with
  | VStr s, VStr t => Ok (String.ltb t s)
  | _, _ =>
      match numeric a, numeric b with
      | Some x, Some y => Ok (negb (Qle_bool x y))
      | _, _ => Raise TypeError
      end
  end.

(** [a == s] for a string literal [s]. *)
Definition eq_str (a : val) (s : string) : bool :=
  match a with
  | VStr t => String.eqb t s
  | _ => false
  end.

(** [str(a)]; the text of a [float] is outside the model. *)
Definition str (a : val) : option string :=
  match a with
  | VNone => Some "None"%string
  | VInt z => Some (pretty z)
  | VFloat _ => None
  | VStr s => Some s
  end.

(** [template.format(arg)] for a template with one replacement field. *)
Fixpoint format (template arg : string) : string :=
  match template with
  | String "{"%char (String "}"%char rest) => (arg ++ rest)%string
  | String c rest => String c (format rest arg)
  | EmptyString => EmptyString
  end.

(** [d[key]] *)
Definition getitem {A : Type} (d : gmap string A) (key : string) : result A :=
  match d !! key with
  | Some a => Ok a
  | None => Raise (KeyError key)
  end.

End Py.

(** ** Methods *)

(** A method body run on an instance of class [S]. *)
Definition method (S A : Type) : Type := S -> result A * S.

#[global] Instance method_ret {S : Type} : MRet (method S) :=
  fun A a self => (Ok a, self).
#[global] Instance method_bind {S : Type} : MBind (method S) :=
  fun A B k m self =>
    match m self with
    | (Ok a, self') => k a self'
    | (Raise e, self') => (Raise e, self')
    end.

(** [self.f] *)
Definition getattr {S A : Type} (f : S -> A) : method S A :=
  fun self => (Ok (f self), self).

(** An expression that does not touch [self]. *)
Definition eval {S A : Type} (r : result A) : method S A :=
  fun self => (r, self).

(** ** The schedule classes *)

Module LearningRateSchedule.

Record t : Type := __init__ { }.

Definition get_learning_rate (epoch : Z) : method t val :=
  mret VNone.

End LearningRateSchedule.

Module ConstantLearningRateSchedule.

Record t : Type := __init__ { value : val }.

Definition get_learning_rate (epoch : Z) : method t val :=
  getattr value.

End ConstantLearningRateSchedule.

Module StepLearningRateSchedule.

Record t : Type := __init__ { initial : val; interval : val; factor : val }.

Definition get_learning_rate (epoch : Z) : method t val :=
  i ← getattr initial;
  f ← getattr factor;
  n ← getattr interval;
  k ← eval (Py.floordiv (VInt epoch) n);
  p ← eval (Py.pow f k);
  eval (Py.mul i p).

End StepLearningRateSchedule.

Module WarmupLearningRateSchedule.

Record t : Type := __init__ { initial : val; warmed_up : val; length : val }.

(** The expression of the last [return]:
    [self.initial + (self.warmed_up - self.initial) * epoch / self.length]. *)
Definition interpolate (epoch : Z) : method t val :=
  i ← getattr initial;
  w ← getattr warmed_up;
  i' ← getattr initial;
  d ← eval (Py.sub w i');
  m ← eval (Py.mul d (VInt epoch));
  len ← getattr length;
  q ← eval (Py.truediv m len);
  eval (Py.add i q).

Definition get_learning_rate (epoch : Z) : method t val :=
  len ← getattr length;
  c ← eval (Py.gt (VInt epoch) len);
  if (c : bool) then getattr warmed_up
  else interpolate epoch.

End WarmupLearningRateSchedule.

(** ** Schedules as the factory's callers see them *)

(** An object of one of the four classes; a call of [get_learning_rate] on
    it runs the method of its class. *)
Inductive Schedule : Type :=
  | Base (s : LearningRateSchedule.t)
  | Constant (s : ConstantLearningRateSchedule.t)
  | Step (s : StepLearningRateSchedule.t)
  | Warmup (s : WarmupLearningRateSchedule.t).

Definition dispatch {S : Type} (wrap : S -> Schedule) (m : method S val) (s : S)
  : result val * Schedule :=
  let (r, s') := m s in (r, wrap s').

Definition get_learning_rate (epoch : Z) : method Schedule val :=
  fun self =>
    match self with
    | Base s => dispatch Base (LearningRateSchedule.get_learning_rate epoch) s
    | Constant s => dispatch Constant (ConstantLearningRateSchedule.get_learning_rate epoch) s
    | Step s => dispatch Step (StepLearningRateSchedule.get_learning_rate epoch) s
    | Warmup s => dispatch Warmup (WarmupLearningRateSchedule.get_learning_rate epoch) s
    end.

(** ** The factory *)

(** The double-quote character (code 34). *)
Definition dquote : string :=
  String (Ascii.Ascii false true false false false true false false) EmptyString.

Definition no_known_schedule : string :=
  ("no known learning rate schedule of type " ++ dquote ++ "{}" ++ dquote)%string.

(** The text of the exception [Exception template arg]. *)
Definition message (e : exn) : option string :=
  match e with
  | Exception template arg => Py.format template <$> Py.str arg
  | _ => None
  end.

(** The body of the [for] loop, on one record, with the list built so
    far. *)
Definition loop_body (schedule_specs : gmap string val) (schedules : list Schedule)
  : result (list Schedule) :=
  t ← Py.getitem schedule_specs "Type";
  if Py.eq_str t "Step" then
    i ← Py.getitem schedule_specs "Initial";
    n ← Py.getitem schedule_specs "Interval";
    f ← Py.getitem schedule_specs "Factor";
    mret (schedules ++ [Step (StepLearningRateSchedule.__init__ i n f)])
  else
    t ← Py.getitem schedule_specs "Type";
    if Py.eq_str t "Warmup" then
      i ← Py.getitem schedule_specs "Initial";
      w ← Py.getitem schedule_specs "Final";
      l ← Py.getitem schedule_specs "Length";
      mret (schedules ++ [Warmup (WarmupLearningRateSchedule.__init__ i w l)])
    else
      t ← Py.getitem schedule_specs "Type";
      if Py.eq_str t "Constant" then
        v ← Py.getitem schedule_specs "Value";
        mret (schedules ++ [Constant (ConstantLearningRateSchedule.__init__ v)])
      else
        t ← Py.getitem schedule_specs "Type";
        Raise (Exception no_known_schedule t).

(** The [for] loop over the records that remain. *)
Fixpoint loop (records : list (gmap string val)) (schedules : list Schedule)
  : result (list Schedule) :=
  match records with
  | [] => Ok schedules
  | schedule_specs :: records' =>
      schedules' ← loop_body schedule_specs schedules;
      loop records' schedules'
  end.

Definition get_learning_rate_schedules (specs : gmap string (list (gmap string val)))
  : result (list Schedule) :=
  schedule_specs ← Py.getitem specs "LearningRateSchedule";
  loop schedule_specs [].

(** ** Other helpers of the module *)

#[global] Instance result_fmap : FMap result := fun A B f r =>
  match r with
  | Ok a => Ok (f a)
  | Raise e => Raise e
  end.

(** [get_spec_with_default]: [specs[key]], with the [KeyError] of a
    missing key caught and answered by [default]. *)
Definition get_spec_with_default {A : Type}
    (specs : gmap string A) (key : string) (default : A) : result A :=
  match Py.getitem specs key with
  | Ok v => Ok v
  | Raise (KeyError _) => Ok default
  | Raise e => Raise e
  end.

(** [l[:stop]] on a list: a negative [stop] counts from the end, and the
    bound is clipped to the list. *)
Definition slice_to {A : Type} (l : list A) (stop : Z) : list A :=
  if stop <? 0 then take (Z.to_nat (Z.of_nat (length l) + stop)) l
  else take (Z.to_nat stop) l.

(** What a call that reads a global name can raise: an exception of [exn],
    or the [NameError] of a name bound nowhere. *)
Inductive raised : Type :=
  | Builtin (e : exn)
  | NameError (name : string).

(** [clip_logs].  Its body reads [lr_log], which is neither a parameter nor
    a local: the name is looked up among the globals of the module at the
    time of the call, here [globals] (restricted to names bound to lists).
    [loss_log] is a list. *)
Definition clip_logs {A B : Type}
    (globals : gmap string (list B)) (loss_log : list A) (epoch : Z)
  : raised + list A :=
  let n := length loss_log in
  match globals !! "lr_log" with
  | None => inl (NameError "lr_log")
  | Some lr_log =>
      if Z.eqb (Z.of_nat (length lr_log)) 0 then inl (Builtin ZeroDivisionError)
      else
        let iters_per_epoch := Z.of_nat n / Z.of_nat (length lr_log) in
        inr (slice_to loss_log (iters_per_epoch * epoch))
  end.

(** The names the module binds when it is imported: the modules it imports
    and the functions and classes it defines.  [lr_log] is none of them, and
    none of them is bound to a list. *)
Definition module_names : list string :=
  ["os"; "pdb"; "logging"; "torch"; "trimesh"; "glob"; "ws"; "np"; "imageio";
   "process_image"; "store_image"; "interpolate_on_faces";
   "LearningRateSchedule"; "ConstantLearningRateSchedule";
   "StepLearningRateSchedule"; "WarmupLearningRateSchedule";
   "get_learning_rate_schedules"; "save_model"; "save_optimizer";
   "load_optimizer"; "save_latent_vectors"; "load_latent_vectors";
   "save_logs"; "load_logs"; "clip_logs"; "get_spec_with_default";
   "get_mean_latent_vector_magnitude"; "append_parameter_magnitudes";
   "fourier_transform"; "add_common_args"; "configure_logging"; "decode_sdf";
   "get_projection"].

(** The renaming in [append_parameter_magnitudes]:
    [if len(name) > 7 and name[:7] == "module.": name = name[7:]]. *)
Definition strip_module (name : string) : string :=
  if Nat.ltb 7 (String.length name) && String.eqb (String.substring 0 7 name) "module."
  then String.substring 7 (String.length name - 7) name
  else name.

(** The body of the loop of [append_parameter_magnitudes] for one named
    parameter; [magnitude] is the number [param.data.norm().item()]. *)
Definition record_magnitude {A : Type}
    (param_mag_log : gmap string (list A)) (name : string) (magnitude : A)
  : result (gmap string (list A)) :=
  let name := strip_module name in
  let param_mag_log :=
    match param_mag_log !! name with
    | None => <[name := []]> param_mag_log
    | Some _ => param_mag_log
    end in
  l ← Py.getitem param_mag_log name;
  mret (<[name := l ++ [magnitude]]> param_mag_log).

(** [append_parameter_magnitudes]: [named_parameters] is what
    [model.named_parameters()] yields, each parameter given by its norm; the
    result is the dict [param_mag_log] after the call, which changes it in
    place. *)
Fixpoint append_parameter_magnitudes {A : Type}
    (param_mag_log : gmap string (list A)) (named_parameters : list (string * A))
  : result (gmap string (list A)) :=
  match named_parameters with
  | [] => Ok param_mag_log
  | (name, magnitude) :: named_parameters' =>
      param_mag_log' ← record_magnitude param_mag_log name magnitude;
      append_parameter_magnitudes param_mag_log' named_parameters'
  end.

(** * What the properties are stated with *)

(** [r] is a number whose value is [x]: what Python's [r == x] tests. *)
Definition evaluates_to (r : result val) (x : Q) : Prop :=
  exists v q, r = Ok v /\ numeric v = Some q /\ (q == x)%Q.

(** The parameters a schedule was built with are all numbers. *)
Definition numeric_parameters (self : Schedule) : Prop :=
  match self with
  | Base _ => False
  | Constant s => is_Some (numeric (ConstantLearningRateSchedule.value s))
  | Step s =>
      is_Some (numeric (StepLearningRateSchedule.initial s)) /\
      is_Some (numeric (StepLearningRateSchedule.interval s)) /\
      is_Some (numeric (StepLearningRateSchedule.factor s))
  | Warmup s =>
      is_Some (numeric (WarmupLearningRateSchedule.initial s)) /\
      is_Some (numeric (WarmupLearningRateSchedule.warmed_up s)) /\
      is_Some (numeric (WarmupLearningRateSchedule.length s))
  end.

(** What the specification asks of the schedule built from a record: the
    variant its ["Type"] names, holding the record's parameters as they
    are. *)
Inductive builds (r : gmap string val) : Schedule -> Prop :=
  | builds_Step i n f :
      r !! "Type" = Some (VStr "Step") ->
      r !! "Initial" = Some i -> r !! "Interval" = Some n -> r !! "Factor" = Some f ->
      builds r (Step (StepLearningRateSchedule.__init__ i n f))
  | builds_Warmup i w l :
      r !! "Type" = Some (VStr "Warmup") ->
      r !! "Initial" = Some i -> r !! "Final" = Some w -> r !! "Length" = Some l ->
      builds r (Warmup (WarmupLearningRateSchedule.__init__ i w l))
  | builds_Constant v :
      r !! "Type" = Some (VStr "Constant") ->
      r !! "Value" = Some v ->
      builds r (Constant (ConstantLearningRateSchedule.__init__ v)).

(** A valid record: one of the three tags with its parameters. *)
Definition valid (r : gmap string val) : Prop := exists s, builds r s.

(** A record whose ["Type"] is [t], none of the three tags. *)
Definition unrecognized (r : gmap string val) (t : val) : Prop :=
  r !! "Type" = Some t /\
  t <> VStr "Step" /\ t <> VStr "Warmup" /\ t <> VStr "Constant".

(** The parameters the factory reads for a type, in the order it reads
    them. *)
Definition parameter_keys (type : string) : list string :=
  if String.eqb type "Step" then ["Initial"; "Interval"; "Factor"]
  else if String.eqb type "Warmup" then ["Initial"; "Final"; "Length"]
  else if String.eqb type "Constant" then ["Value"]
  else [].

(** The first of [keys] that the record lacks. *)
Definition first_missing (r : gmap string val) (keys : list string) : option string :=
  find (fun k => bool_decide (r !! k = None)) keys.

(** The magnitudes a call of [append_parameter_magnitudes] files under the
    key [k], in the order of the parameters. *)
Definition magnitudes_for {A : Type} (k : string) (named_parameters : list (string * A))
  : list A :=
  (filter (fun p => strip_module p.1 = k) named_parameters).*2.

(** ** Example schedules and configurations *)

(** The schedule of the specification's example:
    [{"Type": "Step", "Initial": 0.01, "Interval": 100, "Factor": 0.5}]. *)
Definition step_example : StepLearningRateSchedule.t :=
  StepLearningRateSchedule.__init__ (VFloat (1 # 100)) (VInt 100) (VFloat (1 # 2)).

(** A warm-up from the [int] 0 to the [int] 1 over 10 epochs. *)
Definition warmup_example : WarmupLearningRateSchedule.t :=
  WarmupLearningRateSchedule.__init__ (VInt 0) (VInt 1) (VInt 10).

(** A warm-up of length [0] from [0] to [1]. *)
Definition warmup_zero : WarmupLearningRateSchedule.t :=
  WarmupLearningRateSchedule.__init__ (VInt 0) (VInt 1) (VInt 0).

(** The specification's example configuration:
    [[{"Type": "Constant", "Value": 0.001},
      {"Type": "Step", "Initial": 0.01, "Interval": 100, "Factor": 0.5}]],
    and the same list with a record of type ["Bogus"] in the middle. *)
Definition constant_record : gmap string val :=
  <["Type" := VStr "Constant"]> (<["Value" := VFloat (1 # 1000)]> ∅).

Definition step_record : gmap string val :=
  <["Type" := VStr "Step"]>
    (<["Initial" := VFloat (1 # 100)]>
       (<["Interval" := VInt 100]> (<["Factor" := VFloat (1 # 2)]> ∅))).

Definition bogus_record : gmap string val := <["Type" := VStr "Bogus"]> ∅.

Definition example_specs : gmap string (list (gmap string val)) :=
  <["LearningRateSchedule" := [constant_record; step_record]]> ∅.

Definition bogus_specs : gmap string (list (gmap string val)) :=
  <["LearningRateSchedule" := [constant_record; bogus_record; step_record]]> ∅.

(** A configuration with a negative interval and a zero length. *)
Definition negative_interval_record : gmap string val :=
  <["Type" := VStr "Step"]>
    (<["Initial" := VInt 1]>
       (<["Interval" := VInt (-5)]> (<["Factor" := VInt 2]> ∅))).

Definition zero_length_record : gmap string val :=
  <["Type" := VStr "Warmup"]>
    (<["Initial" := VInt 0]>
       (<["Final" := VInt 1]> (<["Length" := VInt 0]> ∅))).

Definition degenerate_specs : gmap string (list (gmap string val)) :=
  <["LearningRateSchedule" := [negative_interval_record; zero_length_record]]> ∅.

(** ** Proof steps *)

(** Case analysis on the kinds of two operands and on the tests an operator
    makes on them. *)
Ltac operand_cases a b :=
  destruct a, b; simpl;
  repeat match goal with
         | |- context [if ?c then _ else _] => destruct c
         end;
  intros; simplify_eq; simpl; eauto.

(** * Properties *)

(** ** What a result denotes *)

Lemma evaluates_to_eq r x y : (x == y)%Q -> evaluates_to r x -> evaluates_to r y.
Proof.
  intros Hxy (v & q & -> & Hq & Hx).
  exists v, q. repeat split; trivial. now rewrite Hx.
Qed.

Lemma evaluates_to_inj r x y : evaluates_to r x -> evaluates_to r y -> (x == y)%Q.
Proof.
  intros (v & q & -> & Hq & Hx) (v' & q' & [= <-] & Hq' & Hy).
  rewrite Hq in Hq'. injection Hq' as <-. now rewrite <- Hx, <- Hy.
Qed.

(** ** The operators on numbers *)

Section operators.

Variables (a b : val) (x y : Q).
Hypothesis Ha : numeric a = Some x.
Hypothesis Hb : numeric b = Some y.

Lemma arith_numeric fz fq :
  (forall m n : Z, (inject_Z (fz m n) == fq (inject_Z m) (inject_Z n))%Q) ->
  evaluates_to (Py.arith fz fq a b) (fq x y).
Proof using Ha Hb.
  intros Hf. unfold evaluates_to.
  destruct a, b; try discriminate; simpl in Ha, Hb;
    injection Ha as <-; injection Hb as <-; simpl; eexists _, _;
    (split; [reflexivity|split; [reflexivity|]]);
    first [apply Hf | reflexivity].
Qed.

Lemma add_numeric : evaluates_to (Py.add a b) (x + y).
Proof using Ha Hb.
  replace (Py.add a b) with (Py.arith Z.add Qplus a b)
    by (destruct a, b; try discriminate; reflexivity).
  apply arith_numeric. intros m n. now rewrite inject_Z_plus.
Qed.

Lemma sub_numeric : evaluates_to (Py.sub a b) (x - y).
Proof using Ha Hb.
  apply arith_numeric. intros m n.
  unfold Z.sub, Qminus. now rewrite inject_Z_plus, inject_Z_opp.
Qed.

Lemma mul_numeric : evaluates_to (Py.mul a b) (x * y).
Proof using Ha Hb.
  replace (Py.mul a b) with (Py.arith Z.mul Qmult a b)
    by (destruct a, b; try discriminate; reflexivity).
  apply arith_numeric. intros m n. now rewrite inject_Z_mult.
Qed.

Lemma truediv_numeric :
  ~ (y == 0)%Q -> Py.truediv a b = Ok (VFloat (x / y)).
Proof using Ha Hb.
  intros Hy. unfold Py.truediv. rewrite Ha, Hb.
  destruct (Qeq_bool y 0) eqn:E; [|reflexivity].
  now apply Qeq_bool_eq in E.
Qed.

Lemma truediv_zero :
  (y == 0)%Q -> Py.truediv a b = Raise ZeroDivisionError.
Proof using Ha Hb.
  intros Hy. unfold Py.truediv. rewrite Ha, Hb.
  now rewrite (Qeq_eq_bool _ _ Hy).
Qed.

End operators.

(** [epoch // b], [a ** k] and [epoch > b] for an [int] epoch. *)

Lemma floordiv_numeric (e : Z) (b : val) (y : Q) :
  numeric b = Some y -> ~ (y == 0)%Q ->
  exists v, Py.floordiv (VInt e) b = Ok v /\
            numeric v = Some (inject_Z (Qfloor (inject_Z e / y))).
Proof.
  intros Hb Hy. destruct b as [|n|q|]; try discriminate; simpl in Hb;
    injection Hb as <-; unfold Py.floordiv.
  - destruct (Z.eqb_spec n 0) as [->|Hn]; [now destruct Hy|].
    eexists. split; [reflexivity|]. simpl. now rewrite Zdiv_Qdiv.
  - simpl. destruct (Qeq_bool q 0) eqn:E; [now apply Qeq_bool_eq in E|].
    eexists. split; reflexivity.
Qed.

(** What [//] returns has an integral value, as [Py.pow] expects. *)
Lemma floordiv_integral (a b v : val) :
  Py.floordiv a b = Ok v -> exists n : Z, numeric v = Some (inject_Z n).
Proof. unfold Py.floordiv. operand_cases a b. Qed.

Lemma floordiv_zero (e : Z) (b : val) (y : Q) :
  numeric b = Some y -> (y == 0)%Q ->
  Py.floordiv (VInt e) b = Raise ZeroDivisionError.
Proof.
  intros Hb Hy. destruct b as [|n|q|]; try discriminate; simpl in Hb;
    injection Hb as <-; unfold Py.floordiv; simpl.
  - assert (n = 0) as -> by (unfold Qeq in Hy; simpl in Hy; lia). reflexivity.
  - now rewrite (Qeq_eq_bool _ _ Hy).
Qed.

Lemma pow_numeric (a b : val) (x : Q) (n : Z) :
  numeric a = Some x -> numeric b = Some (inject_Z n) -> 0 <= n ->
  evaluates_to (Py.pow a b) (x ^ n).
Proof.
  intros Ha Hb Hn.
  assert (Hc : forall c, (c && (n <? 0))%bool = false)
    by (intros c; rewrite (proj2 (Z.ltb_ge n 0) Hn); apply andb_false_r).
  unfold evaluates_to.
  destruct a as [|m|p|], b as [|n'|q|]; try discriminate; simpl in Ha, Hb;
    injection Ha as <-; unfold Py.pow; simpl.
  - injection Hb as ->. rewrite (proj2 (Z.leb_le 0 n) Hn).
    eexists _, _. split; [reflexivity|]. split; [reflexivity|].
    now apply Zpower_Qpower.
  - injection Hb as ->. rewrite ?Qfloor_Z, ?Z.div_1_r, Hc.
    eexists _, _. split; [reflexivity|]. split; reflexivity.
  - injection Hb as ->. rewrite ?Qfloor_Z, ?Z.div_1_r, Hc.
    eexists _, _. split; [reflexivity|]. split; reflexivity.
  - injection Hb as ->. rewrite ?Qfloor_Z, ?Z.div_1_r, Hc.
    eexists _, _. split; [reflexivity|]. split; reflexivity.
Qed.

Lemma gt_numeric (e : Z) (b : val) (y : Q) :
  numeric b = Some y ->
  Py.gt (VInt e) b = Ok (negb (Qle_bool (inject_Z e) y)).
Proof.
  intros Hb. unfold Py.gt. simpl. now rewrite Hb.
Qed.

Lemma gt_true (e : Z) (y : Q) :
  negb (Qle_bool (inject_Z e) y) = true <-> (y < inject_Z e)%Q.
Proof.
  rewrite negb_true_iff, <- not_true_iff_false, Qle_bool_iff.
  split; [apply Qnot_le_lt | apply Qlt_not_le].
Qed.

Lemma gt_false (e : Z) (y : Q) :
  negb (Qle_bool (inject_Z e) y) = false <-> (inject_Z e <= y)%Q.
Proof. now rewrite negb_false_iff, Qle_bool_iff. Qed.

(** ** What a call computes and what it leaves behind *)

(** Each method body only reads [self]: its result is an expression over
    the attributes, and the instance afterwards is the instance before. *)

Lemma Step_get_learning_rate_eq (epoch : Z) (self : StepLearningRateSchedule.t) :
  StepLearningRateSchedule.get_learning_rate epoch self =
  (k ← Py.floordiv (VInt epoch) (StepLearningRateSchedule.interval self);
   p ← Py.pow (StepLearningRateSchedule.factor self) k;
   Py.mul (StepLearningRateSchedule.initial self) p,
   self).
Proof.
  unfold StepLearningRateSchedule.get_learning_rate, mbind, method_bind,
    result_bind, getattr, eval.
  destruct (Py.floordiv _ _) as [k|]; [|reflexivity].
  destruct (Py.pow _ _); reflexivity.
Qed.

Lemma Warmup_interpolate_eq (epoch : Z) (self : WarmupLearningRateSchedule.t) :
  WarmupLearningRateSchedule.interpolate epoch self =
  (d ← Py.sub (WarmupLearningRateSchedule.warmed_up self)
              (WarmupLearningRateSchedule.initial self);
   m ← Py.mul d (VInt epoch);
   q ← Py.truediv m (WarmupLearningRateSchedule.length self);
   Py.add (WarmupLearningRateSchedule.initial self) q,
   self).
Proof.
  unfold WarmupLearningRateSchedule.interpolate, mbind, method_bind,
    result_bind, getattr, eval.
  destruct (Py.sub _ _) as [d|]; [|reflexivity].
  destruct (Py.mul _ _) as [m|]; [|reflexivity].
  destruct (Py.truediv _ _); reflexivity.
Qed.

Lemma Warmup_get_learning_rate_eq (epoch : Z) (self : WarmupLearningRateSchedule.t) :
  WarmupLearningRateSchedule.get_learning_rate epoch self =
  match Py.gt (VInt epoch) (WarmupLearningRateSchedule.length self) with
  | Ok true => (Ok (WarmupLearningRateSchedule.warmed_up self), self)
  | Ok false => WarmupLearningRateSchedule.interpolate epoch self
  | Raise e => (Raise e, self)
  end.
Proof.
  unfold WarmupLearningRateSchedule.get_learning_rate, mbind, method_bind,
    getattr, eval.
  destruct (Py.gt _ _) as [[|]|]; reflexivity.
Qed.

(** ** Step: the staircase *)

Lemma Qfloor_unique (x : Q) (k : Z) :
  (inject_Z k <= x)%Q -> (x < inject_Z (k + 1))%Q -> Qfloor x = k.
Proof.
  intros Hlo Hhi.
  assert (k <= Qfloor x).
  { rewrite <- (Qfloor_Z k). now apply Qfloor_resp_le. }
  assert (Qfloor x < k + 1).
  { rewrite Zlt_Qlt. eapply Qle_lt_trans; [apply Qfloor_le | exact Hhi]. }
  lia.
Qed.

Lemma floor_in_step (e k : Z) (qn : Q) :
  (0 < qn)%Q ->
  (inject_Z k * qn <= inject_Z e)%Q -> (inject_Z e < inject_Z (k + 1) * qn)%Q ->
  Qfloor (inject_Z e / qn) = k.
Proof.
  intros Hn Hlo Hhi. apply Qfloor_unique.
  - now apply Qle_shift_div_l.
  - now apply Qlt_shift_div_r.
Qed.

Lemma floordiv_same (e e' : Z) (b : val) (y : Q) :
  numeric b = Some y ->
  Qfloor (inject_Z e / y) = Qfloor (inject_Z e' / y) ->
  Py.floordiv (VInt e) b = Py.floordiv (VInt e') b.
Proof.
  intros Hb Hk. destruct b as [|n|q|]; try discriminate; simpl in Hb;
    injection Hb as <-; unfold Py.floordiv; simpl numeric; cbv iota beta.
  - now rewrite !Zdiv_Qdiv, Hk.
  - now rewrite Hk.
Qed.

Section step.

Import StepLearningRateSchedule.

Variables (self : t) (qi qn qf : Q).
Hypothesis Hinitial : numeric (initial self) = Some qi.
Hypothesis Hinterval : numeric (interval self) = Some qn.
Hypothesis Hfactor : numeric (factor self) = Some qf.
Hypothesis Hpos : (0 < qn)%Q.

Lemma step_on_stair (k e : Z) :
  0 <= k ->
  (inject_Z k * qn <= inject_Z e)%Q -> (inject_Z e < inject_Z (k + 1) * qn)%Q ->
  evaluates_to (fst (get_learning_rate e self)) (qi * qf ^ k).
Proof using Hinitial Hinterval Hfactor Hpos.
  intros Hk Hlo Hhi. rewrite Step_get_learning_rate_eq. cbn [fst].
  destruct (floordiv_numeric e _ _ Hinterval) as (v & -> & Hv).
  { intros H0. rewrite H0 in Hpos. discriminate. }
  rewrite (floor_in_step e k qn Hpos Hlo Hhi) in Hv.
  destruct (pow_numeric _ _ _ _ Hfactor Hv Hk) as (p & q & Hp & Hq & Hqe).
  unfold mbind, result_bind. rewrite Hp.
  eapply evaluates_to_eq; [|exact (mul_numeric _ _ _ _ Hinitial Hq)].
  now rewrite Hqe.
Qed.

Lemma step_stair_start (k e : Z) :
  (inject_Z e == inject_Z k * qn)%Q ->
  (inject_Z k * qn <= inject_Z e)%Q /\ (inject_Z e < inject_Z (k + 1) * qn)%Q.
Proof using Hpos.
  intros He. rewrite He, inject_Z_plus. split; [apply Qle_refl|].
  rewrite Qmult_plus_distr_l, Qmult_1_l, <- (Qplus_0_r (inject_Z k * qn)) at 1.
  now apply Qplus_lt_r.
Qed.

End step.

(** C1. A Step schedule with numeric parameters and [interval > 0] returns
    [initial * factor ** k] at epoch [k * interval] for every integer
    [k >= 0]; every epoch of [[k*interval, (k+1)*interval)] gives that value,
    and any two epochs of the range give the very same result; epoch [0]
    gives [initial]. *)
Theorem step_staircase (self : StepLearningRateSchedule.t) (qi qn qf : Q) :
  numeric (StepLearningRateSchedule.initial self) = Some qi ->
  numeric (StepLearningRateSchedule.interval self) = Some qn ->
  numeric (StepLearningRateSchedule.factor self) = Some qf ->
  (0 < qn)%Q ->
  (forall k e : Z, 0 <= k -> (inject_Z e == inject_Z k * qn)%Q ->
     evaluates_to (fst (StepLearningRateSchedule.get_learning_rate e self))
                  (qi * qf ^ k)) /\
  (forall k e : Z, 0 <= k ->
     (inject_Z k * qn <= inject_Z e)%Q -> (inject_Z e < inject_Z (k + 1) * qn)%Q ->
     evaluates_to (fst (StepLearningRateSchedule.get_learning_rate e self))
                  (qi * qf ^ k)) /\
  (forall k e e' : Z, 0 <= k ->
     (inject_Z k * qn <= inject_Z e)%Q -> (inject_Z e < inject_Z (k + 1) * qn)%Q ->
     (inject_Z k * qn <= inject_Z e')%Q -> (inject_Z e' < inject_Z (k + 1) * qn)%Q ->
     StepLearningRateSchedule.get_learning_rate e self =
     StepLearningRateSchedule.get_learning_rate e' self) /\
  evaluates_to (fst (StepLearningRateSchedule.get_learning_rate 0 self)) qi.
Proof.
  intros Hi Hn Hf Hpos. repeat split.
  - intros k e Hk He.
    destruct (step_stair_start qn Hpos k e He).
    now apply (step_on_stair self qi qn qf).
  - intros k e Hk Hlo Hhi. now apply (step_on_stair self qi qn qf).
  - intros k e e' _ Hlo Hhi Hlo' Hhi'.
    rewrite !Step_get_learning_rate_eq.
    rewrite (floordiv_same e e' _ _ Hn); [reflexivity|].
    now rewrite !(floor_in_step _ k qn).
  - apply (evaluates_to_eq _ (qi * qf ^ 0)); [simpl; ring|].
    apply (step_on_stair self qi qn qf); trivial; [lia| |].
    + simpl. rewrite Qmult_0_l. apply Qle_refl.
    + simpl. now rewrite Qmult_1_l.
Qed.

Lemma step_staircase_witness :
  evaluates_to (fst (StepLearningRateSchedule.get_learning_rate 250 step_example))
               ((1 # 100) * (1 # 2) ^ 2).
Proof.
  refine (proj1 (proj2 (step_staircase step_example (1 # 100) (inject_Z 100) (1 # 2)
                          eq_refl eq_refl eq_refl eq_refl)) 2 250 _ _ _).
  - lia.
  - vm_compute. discriminate.
  - reflexivity.
Defined.

(** ** Warmup: the two branches *)

Section warmup.

Import WarmupLearningRateSchedule.

Variables (self : t) (ql : Q).
Hypothesis Hlength : numeric (length self) = Some ql.

Lemma warmup_after (e : Z) :
  (ql < inject_Z e)%Q ->
  get_learning_rate e self = (Ok (warmed_up self), self).
Proof using Hlength.
  intros He. rewrite Warmup_get_learning_rate_eq, (gt_numeric _ _ _ Hlength).
  now rewrite (proj2 (gt_true e ql) He).
Qed.

Lemma warmup_upto (e : Z) :
  (inject_Z e <= ql)%Q ->
  get_learning_rate e self = interpolate e self.
Proof using Hlength.
  intros He. rewrite Warmup_get_learning_rate_eq, (gt_numeric _ _ _ Hlength).
  now rewrite (proj2 (gt_false e ql) He).
Qed.



Variables (qi qw : Q).
Hypothesis Hinitial : numeric (initial self) = Some qi.
Hypothesis Hwarmed_up : numeric (warmed_up self) = Some qw.

Lemma interpolate_value (e : Z) :
  ~ (ql == 0)%Q ->
  evaluates_to (fst (interpolate e self)) (qi + (qw - qi) * inject_Z e / ql).
Proof using Hlength Hinitial Hwarmed_up.
  intros Hnz. rewrite Warmup_interpolate_eq. cbn [fst].
  destruct (sub_numeric _ _ _ _ Hwarmed_up Hinitial) as (d & qd & -> & Hd & Hde).
  unfold mbind, result_bind.
  destruct (mul_numeric d (VInt e) qd (inject_Z e) Hd eq_refl)
    as (m & qm & -> & Hm & Hme).
  rewrite (truediv_numeric _ _ _ _ Hm Hlength Hnz).
  eapply evaluates_to_eq;
    [|exact (add_numeric _ (VFloat (qm / ql)) qi (qm / ql) Hinitial eq_refl)].
  now rewrite Hme, Hde.
Qed.

Lemma interpolate_float_value (e : Z) :
  ~ (ql == 0)%Q ->
  exists q : Q,
    interpolate e self = (Ok (VFloat q), self) /\
    (q == qi + (qw - qi) * inject_Z e / ql)%Q.
Proof using Hlength Hinitial Hwarmed_up.
  intros Hnz. rewrite Warmup_interpolate_eq.
  destruct (sub_numeric _ _ _ _ Hwarmed_up Hinitial) as (d & qd & -> & Hd & Hde).
  unfold mbind, result_bind.
  destruct (mul_numeric d (VInt e) qd (inject_Z e) Hd eq_refl)
    as (m & qm & -> & Hm & Hme).
  rewrite (truediv_numeric _ _ _ _ Hm Hlength Hnz).
  destruct (initial self) as [|zi|fi|]; try discriminate;
    simpl in Hinitial; injection Hinitial as <-; simpl;
    (eexists; split; [reflexivity|]); now rewrite Hme, Hde.
Qed.

Lemma interpolate_zero_length (e : Z) :
  (ql == 0)%Q ->
  interpolate e self = (Raise ZeroDivisionError, self).
Proof using Hlength Hinitial Hwarmed_up.
  intros Hz. rewrite Warmup_interpolate_eq.
  destruct (sub_numeric _ _ _ _ Hwarmed_up Hinitial) as (d & qd & -> & Hd & Hde).
  unfold mbind, result_bind.
  destruct (mul_numeric d (VInt e) qd (inject_Z e) Hd eq_refl)
    as (m & qm & -> & Hm & Hme).
  now rewrite (truediv_zero _ _ _ _ Hm Hlength Hz).
Qed.

End warmup.



(** At [epoch == length] the result is the [float] the interpolation
    computes, where the constant branch would give the [int] stored in
    [warmed_up]. *)
Example warmup_example_at_length :
  fst (WarmupLearningRateSchedule.get_learning_rate 10 warmup_example)
  = Ok (VFloat (10 # 10)).
Proof. reflexivity. Qed.

(** ** Constant *)

(** C5. A Constant schedule returns its [value] at every integer epoch,
    zero and negative ones included. *)
Theorem constant_any_epoch (value : val) (e : Z) :
  ConstantLearningRateSchedule.get_learning_rate e
    (ConstantLearningRateSchedule.__init__ value)
  = (Ok value, ConstantLearningRateSchedule.__init__ value).
Proof. reflexivity. Qed.

(** ** Warmup: the ramp *)

Lemma ramp_increasing (qi qw ql x y : Q) :
  (0 < ql)%Q -> (x <= y)%Q -> (qi <= qw)%Q ->
  (qi + (qw - qi) * x / ql <= qi + (qw - qi) * y / ql)%Q.
Proof.
  intros Hl Hxy Hiw. apply Qplus_le_r. unfold Qdiv.
  apply Qmult_le_compat_r; [|now apply Qlt_le_weak, Qinv_lt_0_compat].
  rewrite !(Qmult_comm (qw - qi)).
  apply Qmult_le_compat_r; [exact Hxy|lra].
Qed.

Lemma ramp_decreasing (qi qw ql x y : Q) :
  (0 < ql)%Q -> (x <= y)%Q -> (qw <= qi)%Q ->
  (qi + (qw - qi) * y / ql <= qi + (qw - qi) * x / ql)%Q.
Proof.
  intros Hl Hxy Hwi.
  assert (H := ramp_increasing (- qi) (- qw) ql x y Hl Hxy
                 (Qopp_le_compat _ _ Hwi)).
  apply Qopp_le_compat in H.
  assert (Hnz : ~ (ql == 0)%Q) by (intros H0; rewrite H0 in Hl; discriminate).
  assert (E : forall z, (qi + (qw - qi) * z / ql
                         == - (- qi + (- qw - - qi) * z / ql))%Q)
    by (intros z; now field).
  now rewrite !E.
Qed.

(** C6. A Warmup schedule with numeric parameters and [length > 0] returns
    [initial] at epoch [0], and over the epochs [0, 1, ..., length] its
    values do not decrease when [warmed_up > initial] and do not increase
    when [warmed_up < initial]. *)
Theorem warmup_monotone (self : WarmupLearningRateSchedule.t) (qi qw ql : Q) :
  numeric (WarmupLearningRateSchedule.initial self) = Some qi ->
  numeric (WarmupLearningRateSchedule.warmed_up self) = Some qw ->
  numeric (WarmupLearningRateSchedule.length self) = Some ql ->
  (0 < ql)%Q ->
  evaluates_to (fst (WarmupLearningRateSchedule.get_learning_rate 0 self)) qi /\
  (forall e1 e2 : Z, 0 <= e1 -> e1 <= e2 -> (inject_Z e2 <= ql)%Q ->
     exists v1 v2 : Q,
       evaluates_to (fst (WarmupLearningRateSchedule.get_learning_rate e1 self)) v1 /\
       evaluates_to (fst (WarmupLearningRateSchedule.get_learning_rate e2 self)) v2 /\
       ((qi < qw)%Q -> (v1 <= v2)%Q) /\
       ((qw < qi)%Q -> (v2 <= v1)%Q)).
Proof.
  intros Hi Hw Hl Hpos.
  assert (Hnz : ~ (ql == 0)%Q) by (intros H0; rewrite H0 in Hpos; discriminate).
  assert (Hval : forall e : Z, (inject_Z e <= ql)%Q ->
            evaluates_to (fst (WarmupLearningRateSchedule.get_learning_rate e self))
                         (qi + (qw - qi) * inject_Z e / ql)).
  { intros e He. rewrite (warmup_upto self ql Hl e He).
    now apply interpolate_value. }
  split.
  - apply (evaluates_to_eq _ (qi + (qw - qi) * inject_Z 0 / ql)).
    + unfold Qdiv. change (inject_Z 0) with 0%Q. ring.
    + apply Hval. now apply Qlt_le_weak.
  - intros e1 e2 H0 H12 H2.
    assert (H12q : (inject_Z e1 <= inject_Z e2)%Q) by now rewrite <- Zle_Qle.
    exists (qi + (qw - qi) * inject_Z e1 / ql)%Q, (qi + (qw - qi) * inject_Z e2 / ql)%Q.
    split; [apply Hval; now apply (Qle_trans _ (inject_Z e2))|].
    split; [now apply Hval|].
    split; intros Hlt.
    + apply ramp_increasing; trivial. now apply Qlt_le_weak.
    + apply ramp_decreasing; trivial. now apply Qlt_le_weak.
Qed.

Lemma warmup_monotone_witness :
  exists v1 v2 : Q,
    evaluates_to (fst (WarmupLearningRateSchedule.get_learning_rate 3 warmup_example)) v1 /\
    evaluates_to (fst (WarmupLearningRateSchedule.get_learning_rate 7 warmup_example)) v2 /\
    ((0 < 1)%Q -> (v1 <= v2)%Q) /\
    ((1 < 0)%Q -> (v2 <= v1)%Q).
Proof.
  refine (proj2 (warmup_monotone warmup_example 0 1 (inject_Z 10)
                   eq_refl eq_refl eq_refl eq_refl) 3 7 _ _ _).
  - lia.
  - lia.
  - vm_compute. discriminate.
Defined.

(** ** Warmup with a zero length *)

(** C7, as stated, fails: with [length = 0] the test [epoch > length] holds
    at epoch [1], so [warmed_up] is returned and nothing is divided. *)
Lemma warmup_zero_length_epoch_1 :
  WarmupLearningRateSchedule.get_learning_rate 1 warmup_zero
  = (Ok (VInt 1), warmup_zero) /\
  fst (WarmupLearningRateSchedule.get_learning_rate 1 warmup_zero)
  <> Raise ZeroDivisionError.
Proof. split; [reflexivity | discriminate]. Qed.

(** C7, amended. A Warmup schedule with numeric parameters and [length]
    zero raises [ZeroDivisionError] at every epoch [<= 0], and the caller of
    [get_learning_rate] receives that exception as it is; at every epoch
    [> 0] it returns [warmed_up]. *)
Theorem warmup_zero_length (self : WarmupLearningRateSchedule.t) (qi qw ql : Q) :
  numeric (WarmupLearningRateSchedule.initial self) = Some qi ->
  numeric (WarmupLearningRateSchedule.warmed_up self) = Some qw ->
  numeric (WarmupLearningRateSchedule.length self) = Some ql ->
  (ql == 0)%Q ->
  (forall e : Z, e <= 0 ->
     WarmupLearningRateSchedule.get_learning_rate e self
     = (Raise ZeroDivisionError, self) /\
     get_learning_rate e (Warmup self)
     = (Raise ZeroDivisionError, Warmup self)) /\
  (forall e : Z, 0 < e ->
     WarmupLearningRateSchedule.get_learning_rate e self
     = (Ok (WarmupLearningRateSchedule.warmed_up self), self)).
Proof.
  intros Hi Hw Hl Hz. split.
  - intros e He.
    assert (Hraise : WarmupLearningRateSchedule.get_learning_rate e self
                     = (Raise ZeroDivisionError, self)).
    { rewrite (warmup_upto self ql Hl).
      - now apply (interpolate_zero_length self ql Hl qi qw).
      - rewrite Hz. change 0%Q with (inject_Z 0). now rewrite <- Zle_Qle. }
    split; [exact Hraise|].
    unfold get_learning_rate, dispatch. now rewrite Hraise.
  - intros e He. apply (warmup_after self ql Hl).
    rewrite Hz. change 0%Q with (inject_Z 0). now rewrite <- Zlt_Qlt.
Qed.

Lemma warmup_zero_length_witness :
  WarmupLearningRateSchedule.get_learning_rate 0 warmup_zero
  = (Raise ZeroDivisionError, warmup_zero).
Proof.
  refine (proj1 (proj1 (warmup_zero_length warmup_zero 0 1 0
                          eq_refl eq_refl eq_refl _) 0 _)).
  - reflexivity.
  - lia.
Defined.

(** ** The instance after a call *)

Lemma Step_frame (e : Z) (s : StepLearningRateSchedule.t) :
  snd (StepLearningRateSchedule.get_learning_rate e s) = s.
Proof. now rewrite Step_get_learning_rate_eq. Qed.

Lemma Warmup_frame (e : Z) (s : WarmupLearningRateSchedule.t) :
  snd (WarmupLearningRateSchedule.get_learning_rate e s) = s.
Proof.
  rewrite Warmup_get_learning_rate_eq.
  destruct (Py.gt _ _) as [[|]|]; trivial.
  now rewrite Warmup_interpolate_eq.
Qed.

Lemma dispatch_frame {S : Type} (wrap : S -> Schedule) (m : method S val) (s : S) :
  snd (m s) = s -> snd (dispatch wrap m s) = wrap s.
Proof. unfold dispatch. destruct (m s) as [r s']. simpl. now intros ->. Qed.

Lemma Schedule_frame (e : Z) (self : Schedule) :
  snd (get_learning_rate e self) = self.
Proof.
  destruct self as [s|s|s|s]; apply dispatch_frame;
    [reflexivity | reflexivity | apply Step_frame | apply Warmup_frame].
Qed.

(** C9. A call of [get_learning_rate] leaves the schedule it is called on
    as it was, whatever its class: no attribute changes. *)
Theorem get_learning_rate_frame (e : Z) :
  (forall s, snd (LearningRateSchedule.get_learning_rate e s) = s) /\
  (forall s, snd (ConstantLearningRateSchedule.get_learning_rate e s) = s) /\
  (forall s, snd (StepLearningRateSchedule.get_learning_rate e s) = s) /\
  (forall s, snd (WarmupLearningRateSchedule.get_learning_rate e s) = s) /\
  (forall self : Schedule, snd (get_learning_rate e self) = self).
Proof.
  repeat split; auto using Step_frame, Warmup_frame, Schedule_frame.
Qed.

(** ** The base class *)

Lemma arith_closed fz fq a b v :
  is_Some (numeric a) -> is_Some (numeric b) ->
  Py.arith fz fq a b = Ok v -> is_Some (numeric v).
Proof.
  intros [x Ha] [y Hb]. destruct a, b; simpl; intros; simplify_eq; eauto.
Qed.

Lemma add_closed a b v :
  is_Some (numeric a) -> is_Some (numeric b) ->
  Py.add a b = Ok v -> is_Some (numeric v).
Proof.
  intros Ha Hb. replace (Py.add a b) with (Py.arith Z.add Qplus a b).
  - now apply arith_closed.
  - destruct Ha, Hb, a, b; simplify_eq; reflexivity.
Qed.

Lemma mul_closed a b v :
  is_Some (numeric a) -> is_Some (numeric b) ->
  Py.mul a b = Ok v -> is_Some (numeric v).
Proof.
  intros Ha Hb. replace (Py.mul a b) with (Py.arith Z.mul Qmult a b).
  - now apply arith_closed.
  - destruct Ha, Hb, a, b; simplify_eq; reflexivity.
Qed.

Lemma truediv_closed a b v :
  Py.truediv a b = Ok v -> is_Some (numeric v).
Proof.
  unfold Py.truediv. destruct (numeric a), (numeric b); try discriminate.
  destruct (Qeq_bool _ _); intros; simplify_eq; simpl; eauto.
Qed.

Lemma floordiv_closed a b v :
  Py.floordiv a b = Ok v -> is_Some (numeric v).
Proof.
  unfold Py.floordiv. operand_cases a b.
Qed.

Lemma pow_closed a b v :
  Py.pow a b = Ok v -> is_Some (numeric v).
Proof.
  unfold Py.pow. operand_cases a b.
Qed.

Lemma numeric_result (e : Z) (self : Schedule) (v : val) :
  numeric_parameters self ->
  fst (get_learning_rate e self) = Ok v -> is_Some (numeric v).
Proof.
  destruct self as [s|s|s|s]; simpl; unfold dispatch.
  - intros [].
  - intros Hv [= <-]. exact Hv.
  - intros (Hi & Hn & Hf). rewrite Step_get_learning_rate_eq.
    cbn [fst]. unfold mbind, result_bind.
    destruct (Py.floordiv _ _) as [k|] eqn:Ek; [|discriminate].
    destruct (Py.pow _ _) as [p|] eqn:Ep; [|discriminate].
    apply mul_closed; eauto using pow_closed.
  - intros (Hi & Hw & Hl). rewrite Warmup_get_learning_rate_eq.
    destruct (Py.gt _ _) as [[|]|]; cbn [fst]; [congruence| |discriminate].
    rewrite Warmup_interpolate_eq. cbn [fst]. unfold mbind, result_bind.
    destruct (Py.sub _ _) as [d|] eqn:Ed; [|discriminate].
    destruct (Py.mul _ _) as [m|] eqn:Em; [|discriminate].
    destruct (Py.truediv _ _) as [q|] eqn:Eq; [|discriminate].
    apply add_closed; eauto using truediv_closed.
Qed.

(** C10. [get_learning_rate] of the base class [LearningRateSchedule]
    returns [None] at every epoch: no number and no exception.  A schedule
    of a concrete class with numeric parameters returns a number whenever it
    returns. *)
Theorem base_returns_none (e : Z) :
  (forall s, LearningRateSchedule.get_learning_rate e s = (Ok VNone, s)) /\
  (forall s, get_learning_rate e (Base s) = (Ok VNone, Base s)) /\
  (forall self v, numeric_parameters self ->
     fst (get_learning_rate e self) = Ok v -> is_Some (numeric v)).
Proof.
  repeat split. apply numeric_result.
Qed.

Lemma base_returns_none_witness : is_Some (numeric (VFloat (1 # 200))).
Proof.
  refine (proj2 (proj2 (base_returns_none 150)) (Step step_example) _ _ eq_refl).
  repeat split; eexists; reflexivity.
Defined.

(** ** The factory *)

Lemma builds_functional r s s' : builds r s -> builds r s' -> s = s'.
Proof.
  intros H H'. destruct H; destruct H'; simplify_eq; reflexivity.
Qed.

Lemma loop_body_valid r s schedules :
  builds r s -> loop_body r schedules = Ok (schedules ++ [s]).
Proof.
  intros H. unfold loop_body, Py.getitem.
  destruct H as [i n f Ht Hi Hn Hf | i w l Ht Hi Hw Hl | v Ht Hv];
    rewrite Ht; simpl.
  - now rewrite Hi, Hn, Hf.
  - now rewrite Hi, Hw, Hl.
  - now rewrite Hv.
Qed.

Lemma eq_str_false (t : val) (s : string) : t <> VStr s -> Py.eq_str t s = false.
Proof.
  intros Hne. destruct t as [| | |s']; trivial. simpl.
  apply String.eqb_neq. congruence.
Qed.

Lemma loop_body_unrecognized r t schedules :
  unrecognized r t ->
  loop_body r schedules = Raise (Exception no_known_schedule t).
Proof.
  intros (Ht & HS & HW & HC). unfold loop_body, Py.getitem.
  apply eq_str_false in HS, HW, HC.
  rewrite Ht. simpl. now rewrite HS, HW, HC.
Qed.

Lemma loop_valid records : forall schedules,
  Forall valid records ->
  exists built, loop records schedules = Ok (schedules ++ built) /\
                Forall2 builds records built.
Proof.
  induction records as [|r records IH]; intros schedules Hall.
  - exists []. split; [now rewrite app_nil_r | constructor].
  - apply Forall_cons in Hall as [[s Hs] Hall].
    destruct (IH (schedules ++ [s]) Hall) as (built & Hloop & Hbuilt).
    exists (s :: built). split; [|now constructor].
    simpl. rewrite (loop_body_valid r s schedules Hs). simpl.
    now rewrite Hloop, <- app_assoc.
Qed.

Lemma loop_stops pre r post t : forall schedules,
  Forall valid pre -> unrecognized r t ->
  loop (pre ++ r :: post) schedules = Raise (Exception no_known_schedule t).
Proof.
  induction pre as [|r0 pre IH]; intros schedules Hpre Hr; simpl.
  - now rewrite (loop_body_unrecognized r t schedules Hr).
  - apply Forall_cons in Hpre as [[s Hs] Hpre].
    rewrite (loop_body_valid r0 s schedules Hs). simpl. now apply IH.
Qed.

Lemma loop_never_returns records : forall schedules,
  Exists (fun r => exists t, unrecognized r t) records ->
  exists e, loop records schedules = Raise e.
Proof.
  induction records as [|r records IH]; intros schedules Hex.
  - now apply Exists_nil in Hex.
  - simpl. destruct (loop_body r schedules) as [schedules'|e] eqn:Hbody.
    + apply Exists_cons in Hex as [[t Ht]|Hex].
      * rewrite (loop_body_unrecognized r t schedules Ht) in Hbody. discriminate.
      * simpl. now apply IH.
    + now exists e.
Qed.

Lemma message_no_known_schedule (t : val) (s : string) :
  Py.str t = Some s ->
  message (Exception no_known_schedule t)
  = Some ("no known learning rate schedule of type " ++ dquote ++ s ++ dquote)%string.
Proof. intros Hs. simpl. now rewrite Hs. Qed.

Lemma first_unrecognized records :
  Forall (fun r => valid r \/ exists t, unrecognized r t) records ->
  Exists (fun r => exists t, unrecognized r t) records ->
  exists pre r post t,
    records = pre ++ r :: post /\ Forall valid pre /\ unrecognized r t.
Proof.
  induction records as [|r0 records IH]; intros Hall Hex.
  - now apply Exists_nil in Hex.
  - apply Forall_cons in Hall as [[Hv|[t Ht]] Hall].
    + apply Exists_cons in Hex as [[t Ht]|Hex].
      * exists [], r0, records, t. repeat split; trivial; apply Ht.
      * destruct (IH Hall Hex) as (pre & r & post & t & -> & Hpre & Hr).
        exists (r0 :: pre), r, post, t. split; [reflexivity|].
        split; [now constructor | exact Hr].
    + exists [], r0, records, t. repeat split; trivial; apply Ht.
Qed.

(** C3. When a record's ["Type"] is none of ["Step"], ["Warmup"] and
    ["Constant"], [get_learning_rate_schedules] raises and returns no list.
    When every record is a valid one or one of an unrecognized type, what it
    raises is the exception made from the first unrecognized type, whatever
    the records after it are; for a type that is a string, the text of the
    exception holds that string between quotes. *)
Theorem unrecognized_type_raises
    (specs : gmap string (list (gmap string val))) (records : list (gmap string val)) :
  specs !! "LearningRateSchedule" = Some records ->
  Exists (fun r => exists t, unrecognized r t) records ->
  (exists e, get_learning_rate_schedules specs = Raise e) /\
  (Forall (fun r => valid r \/ exists t, unrecognized r t) records ->
   exists r t,
     r ∈ records /\ unrecognized r t /\
     get_learning_rate_schedules specs = Raise (Exception no_known_schedule t) /\
     forall s, t = VStr s ->
       message (Exception no_known_schedule t)
       = Some ("no known learning rate schedule of type "
               ++ dquote ++ s ++ dquote)%string) /\
  (forall pre r post t,
     records = pre ++ r :: post -> Forall valid pre -> unrecognized r t ->
     get_learning_rate_schedules specs = Raise (Exception no_known_schedule t)).
Proof.
  intros Hspecs Hex. unfold get_learning_rate_schedules, Py.getitem.
  rewrite Hspecs. simpl. split; [|split].
  - now apply loop_never_returns.
  - intros Hall.
    destruct (first_unrecognized records Hall Hex)
      as (pre & r & post & t & -> & Hpre & Hr).
    exists r, t. split; [|split; [exact Hr|split]].
    + apply elem_of_app. right. apply elem_of_cons. now left.
    + now apply loop_stops.
    + intros s ->. now apply message_no_known_schedule.
  - intros pre r post t -> Hpre Hr. now apply loop_stops.
Qed.

(** C4. From a list of valid records [get_learning_rate_schedules] returns
    a list with one schedule for each record, in the order of the records:
    the schedule at each place is the variant the record's ["Type"] names
    and holds the record's parameters unchanged, whatever they are. *)
Theorem one_schedule_per_record
    (specs : gmap string (list (gmap string val))) (records : list (gmap string val)) :
  specs !! "LearningRateSchedule" = Some records ->
  Forall valid records ->
  exists schedules,
    get_learning_rate_schedules specs = Ok schedules /\
    length schedules = length records /\
    Forall2 builds records schedules /\
    (forall i r, records !! i = Some r ->
       exists s, schedules !! i = Some s /\ builds r s).
Proof.
  intros Hspecs Hall. unfold get_learning_rate_schedules, Py.getitem.
  rewrite Hspecs. simpl.
  destruct (loop_valid records [] Hall) as (built & Hloop & Hbuilt).
  exists built. split; [exact Hloop|].
  split; [symmetry; eapply Forall2_length; eassumption|].
  split; [exact Hbuilt|].
  intros i r Hr. eapply Forall2_lookup_l in Hbuilt as (s & Hs & Hb); eauto.
Qed.

Lemma constant_record_valid : valid constant_record.
Proof. eexists. apply builds_Constant; reflexivity. Defined.

Lemma step_record_valid : valid step_record.
Proof. eexists. apply builds_Step; reflexivity. Defined.

Lemma bogus_record_unrecognized : unrecognized bogus_record (VStr "Bogus").
Proof. repeat split; discriminate. Defined.

Lemma unrecognized_type_raises_witness :
  get_learning_rate_schedules bogus_specs
  = Raise (Exception no_known_schedule (VStr "Bogus")).
Proof.
  refine (proj2 (proj2 (unrecognized_type_raises bogus_specs _ eq_refl _))
            [constant_record] bogus_record [step_record] (VStr "Bogus") eq_refl _
            bogus_record_unrecognized).
  - apply Exists_cons_tl, Exists_cons_hd.
    exists (VStr "Bogus"). exact bogus_record_unrecognized.
  - exact (Forall_cons_2 _ _ _ constant_record_valid (Forall_nil_2 _)).
Defined.

Lemma one_schedule_per_record_witness :
  exists schedules,
    get_learning_rate_schedules example_specs = Ok schedules /\
    length schedules = 2%nat /\
    Forall2 builds [constant_record; step_record] schedules /\
    (forall i r, [constant_record; step_record] !! i = Some r ->
       exists s, schedules !! i = Some s /\ builds r s).
Proof.
  refine (one_schedule_per_record example_specs _ eq_refl _).
  exact (Forall_cons_2 _ _ _ constant_record_valid
           (Forall_cons_2 _ _ _ step_record_valid (Forall_nil_2 _))).
Defined.

(** The schedules of the example, and their values over the first three
    stairs. *)
Example example_specs_schedules :
  get_learning_rate_schedules example_specs
  = Ok [Constant (ConstantLearningRateSchedule.__init__ (VFloat (1 # 1000)));
        Step step_example].
Proof. reflexivity. Qed.

Example example_specs_values (e : Z) :
  (0 <= e < 100 ->
   evaluates_to (fst (get_learning_rate e (Step step_example))) (1 # 100)) /\
  (100 <= e < 200 ->
   evaluates_to (fst (get_learning_rate e (Step step_example))) (1 # 200)) /\
  (200 <= e < 300 ->
   evaluates_to (fst (get_learning_rate e (Step step_example))) (1 # 400)).
Proof.
  assert (Hstair : forall k, 0 <= k -> 100 * k <= e < 100 * (k + 1) ->
            evaluates_to (fst (get_learning_rate e (Step step_example)))
                         ((1 # 100) * (1 # 2) ^ k)).
  { intros k Hk He. unfold get_learning_rate, dispatch.
    destruct (StepLearningRateSchedule.get_learning_rate e step_example)
      as [r s'] eqn:Hcall.
    change r with (fst (r, s')). rewrite <- Hcall.
    apply (step_on_stair step_example (1 # 100) (inject_Z 100) (1 # 2));
      trivial; try reflexivity.
    - rewrite <- inject_Z_mult, <- Zle_Qle. lia.
    - rewrite <- inject_Z_mult, <- Zlt_Qlt. lia. }
  repeat split; intros He.
  - apply (evaluates_to_eq _ _ _ (eq_refl : ((1 # 100) * (1 # 2) ^ 0 == 1 # 100)%Q)).
    apply Hstair; lia.
  - apply (evaluates_to_eq _ _ _ (eq_refl : ((1 # 100) * (1 # 2) ^ 1 == 1 # 200)%Q)).
    apply Hstair; lia.
  - apply (evaluates_to_eq _ _ _ (eq_refl : ((1 # 100) * (1 # 2) ^ 2 == 1 # 400)%Q)).
    apply Hstair; lia.
Qed.

(** No parameter is checked when the list is built. *)
Example degenerate_specs_schedules :
  get_learning_rate_schedules degenerate_specs
  = Ok [Step (StepLearningRateSchedule.__init__ (VInt 1) (VInt (-5)) (VInt 2));
        Warmup warmup_zero].
Proof. reflexivity. Qed.

(** * Further properties of the schedules *)

(** ** Step at any epoch *)

Lemma Qnonzero_of_pos (q : Q) : (0 < q)%Q -> ~ (q == 0)%Q.
Proof. intros Hq H0. rewrite H0 in Hq. discriminate. Qed.

Lemma inject_Z_zero (m : Z) : (inject_Z m == 0)%Q <-> m = 0.
Proof. unfold Qeq. simpl. lia. Qed.

Lemma pow_numeric_any (a b : val) (x : Q) (n : Z) :
  numeric a = Some x -> numeric b = Some (inject_Z n) ->
  ~ (x == 0)%Q \/ 0 <= n ->
  evaluates_to (Py.pow a b) (x ^ n).
Proof.
  intros Ha Hb Hok.
  destruct (Z.le_gt_cases 0 n) as [Hn|Hn]; [now apply pow_numeric|].
  destruct Hok as [Hx|Hn']; [|lia].
  assert (Hq : Qeq_bool x 0 = false).
  { destruct (Qeq_bool x 0) eqn:E; trivial. now apply Qeq_bool_eq in E. }
  unfold evaluates_to.
  destruct a as [|m|p|], b as [|n'|q|]; try discriminate; simpl in Ha, Hb;
    injection Ha as <-; injection Hb as ->; unfold Py.pow; simpl;
    rewrite ?Z.div_1_r, ?Hq; simpl.
  - rewrite (proj2 (Z.leb_gt 0 n) Hn).
    destruct (Z.eqb_spec m 0) as [->|_]; [now destruct Hx|].
    eexists _, _. split; [reflexivity|]. split; reflexivity.
  - eexists _, _. split; [reflexivity|]. split; reflexivity.
  - eexists _, _. split; [reflexivity|]. split; reflexivity.
  - eexists _, _. split; [reflexivity|]. split; reflexivity.
Qed.

Lemma pow_zero_negative (a b : val) (x : Q) (n : Z) :
  numeric a = Some x -> numeric b = Some (inject_Z n) ->
  (x == 0)%Q -> n < 0 ->
  Py.pow a b = Raise ZeroDivisionError.
Proof.
  intros Ha Hb Hx Hn.
  assert (Hq : Qeq_bool x 0 = true) by now apply Qeq_eq_bool.
  destruct a as [|m|p|], b as [|n'|q|]; try discriminate; simpl in Ha, Hb;
    injection Ha as <-; injection Hb as ->; unfold Py.pow; simpl;
    rewrite ?Z.div_1_r, ?Hq, ?(proj2 (Z.ltb_lt n 0) Hn); trivial.
  rewrite (proj2 (Z.leb_gt 0 n) Hn).
  apply inject_Z_zero in Hx as ->. reflexivity.
Qed.

Section step_anywhere.

Import StepLearningRateSchedule.

Variables (self : t) (qn : Q).
Hypothesis Hinterval : numeric (interval self) = Some qn.

Lemma step_zero_interval_raises (e : Z) :
  (qn == 0)%Q -> get_learning_rate e self = (Raise ZeroDivisionError, self).
Proof using Hinterval.
  intros Hz. rewrite Step_get_learning_rate_eq.
  now rewrite (floordiv_zero e _ _ Hinterval Hz).
Qed.

Variables (qi qf : Q).
Hypothesis Hinitial : numeric (initial self) = Some qi.
Hypothesis Hfactor : numeric (factor self) = Some qf.
Hypothesis Hnz : ~ (qn == 0)%Q.

Lemma step_formula (e : Z) :
  ~ (qf == 0)%Q \/ 0 <= Qfloor (inject_Z e / qn) ->
  evaluates_to (fst (get_learning_rate e self))
               (qi * qf ^ Qfloor (inject_Z e / qn)).
Proof using Hinitial Hinterval Hfactor Hnz.
  intros Hok. rewrite Step_get_learning_rate_eq. cbn [fst].
  destruct (floordiv_numeric e _ _ Hinterval Hnz) as (v & -> & Hv).
  destruct (pow_numeric_any _ _ _ _ Hfactor Hv Hok) as (p & q & Hp & Hq & Hqe).
  unfold mbind, result_bind. rewrite Hp.
  eapply evaluates_to_eq; [|exact (mul_numeric _ _ _ _ Hinitial Hq)].
  now rewrite Hqe.
Qed.

Lemma step_zero_factor_raises (e : Z) :
  (qf == 0)%Q -> Qfloor (inject_Z e / qn) < 0 ->
  get_learning_rate e self = (Raise ZeroDivisionError, self).
Proof using Hinterval Hfactor Hnz.
  intros Hz Hneg. rewrite Step_get_learning_rate_eq.
  destruct (floordiv_numeric e _ _ Hinterval Hnz) as (v & -> & Hv).
  unfold mbind, result_bind.
  now rewrite (pow_zero_negative _ _ _ _ Hfactor Hv Hz Hneg).
Qed.

End step_anywhere.

(** X1. For a Step schedule with numeric parameters and an interval that is
    not zero, negative or not, the value at any epoch, negative or not, is
    [initial * factor ** floor(epoch / interval)], as long as [factor] is
    not zero or the exponent is not negative. *)
Theorem step_closed_form (self : StepLearningRateSchedule.t) (qi qn qf : Q) (e : Z) :
  numeric (StepLearningRateSchedule.initial self) = Some qi ->
  numeric (StepLearningRateSchedule.interval self) = Some qn ->
  numeric (StepLearningRateSchedule.factor self) = Some qf ->
  ~ (qn == 0)%Q ->
  ~ (qf == 0)%Q \/ 0 <= Qfloor (inject_Z e / qn) ->
  evaluates_to (fst (StepLearningRateSchedule.get_learning_rate e self))
               (qi * qf ^ Qfloor (inject_Z e / qn)).
Proof. intros Hi Hn Hf Hnz Hok. now apply step_formula. Qed.

(** Epoch [-1] of the example: one stair below zero, [0.01 / 0.5]. *)
Lemma step_closed_form_witness :
  evaluates_to (fst (StepLearningRateSchedule.get_learning_rate (-1) step_example))
               ((1 # 100) * (1 # 2) ^ Qfloor (inject_Z (-1) / inject_Z 100)).
Proof.
  refine (step_closed_form step_example (1 # 100) (inject_Z 100) (1 # 2) (-1)
            eq_refl eq_refl eq_refl _ _).
  - discriminate.
  - left. discriminate.
Defined.

(** X2. A Step schedule whose interval is zero raises [ZeroDivisionError]
    at every epoch, whatever [initial] and [factor] are, and is left
    unchanged. *)
Theorem step_zero_interval (self : StepLearningRateSchedule.t) (qn : Q) (e : Z) :
  numeric (StepLearningRateSchedule.interval self) = Some qn ->
  (qn == 0)%Q ->
  StepLearningRateSchedule.get_learning_rate e self = (Raise ZeroDivisionError, self).
Proof. intros Hn Hz. now apply (step_zero_interval_raises self qn). Qed.

Lemma step_zero_interval_witness :
  StepLearningRateSchedule.get_learning_rate 5
    (StepLearningRateSchedule.__init__ (VStr "x") (VInt 0) VNone)
  = (Raise ZeroDivisionError,
     StepLearningRateSchedule.__init__ (VStr "x") (VInt 0) VNone).
Proof.
  refine (step_zero_interval
            (StepLearningRateSchedule.__init__ (VStr "x") (VInt 0) VNone)
            (inject_Z 0) 5 eq_refl _).
  reflexivity.
Defined.

(** X3. A Step schedule with a positive interval and [factor] zero raises
    [ZeroDivisionError] at every negative epoch: the exponent is negative
    there. *)
Theorem step_zero_factor_negative_epoch
    (self : StepLearningRateSchedule.t) (qn qf : Q) (e : Z) :
  numeric (StepLearningRateSchedule.interval self) = Some qn ->
  numeric (StepLearningRateSchedule.factor self) = Some qf ->
  (0 < qn)%Q -> (qf == 0)%Q -> e < 0 ->
  StepLearningRateSchedule.get_learning_rate e self = (Raise ZeroDivisionError, self).
Proof.
  intros Hn Hf Hpos Hz He.
  apply (step_zero_factor_raises self qn Hn qf Hf (Qnonzero_of_pos _ Hpos)); trivial.
  assert (Hlt : (inject_Z e / qn < inject_Z 0)%Q).
  { apply Qlt_shift_div_r; trivial. rewrite Qmult_0_l.
    change 0%Q with (inject_Z 0). now rewrite <- Zlt_Qlt. }
  rewrite Zlt_Qlt. eapply Qle_lt_trans; [apply Qfloor_le | exact Hlt].
Qed.

Lemma step_zero_factor_negative_epoch_witness :
  StepLearningRateSchedule.get_learning_rate (-1)
    (StepLearningRateSchedule.__init__ (VInt 1) (VInt 10) (VInt 0))
  = (Raise ZeroDivisionError,
     StepLearningRateSchedule.__init__ (VInt 1) (VInt 10) (VInt 0)).
Proof.
  refine (step_zero_factor_negative_epoch
            (StepLearningRateSchedule.__init__ (VInt 1) (VInt 10) (VInt 0))
            (inject_Z 10) (inject_Z 0) (-1) eq_refl eq_refl eq_refl _ _).
  - reflexivity.
  - lia.
Defined.

(** ** Step: decay and growth *)

Lemma Qpower_le_1 (q : Q) (d : Z) :
  (0 < q)%Q -> (q <= 1)%Q -> 0 <= d -> (q ^ d <= 1)%Q.
Proof.
  intros Hq Hq1 Hd.
  assert (Hpos : (0 < q ^ d)%Q) by now apply Qpower_0_lt.
  assert (Hinv : (1 <= / q ^ d)%Q).
  { rewrite <- Qinv_power. apply Qpower_1_le; trivial.
    apply Qle_shift_inv_l; trivial. now rewrite Qmult_1_l. }
  apply (Qmult_le_l _ _ _ Hpos) in Hinv.
  rewrite Qmult_1_r, Qmult_inv_r in Hinv; trivial.
  now apply Qnonzero_of_pos.
Qed.

Lemma Qpower_antitone (q : Q) (n m : Z) :
  (0 < q)%Q -> (q <= 1)%Q -> n <= m -> (q ^ m <= q ^ n)%Q.
Proof.
  intros Hq Hq1 Hnm.
  replace m with (n + (m - n)) by ring.
  rewrite Qpower_plus by now apply Qnonzero_of_pos.
  rewrite <- (Qmult_1_r (q ^ n)) at 2.
  apply Qmult_le_l; [now apply Qpower_0_lt|].
  apply Qpower_le_1; trivial. lia.
Qed.

Lemma floor_quotient_monotone (e1 e2 : Z) (qn : Q) :
  (0 < qn)%Q -> e1 <= e2 ->
  Qfloor (inject_Z e1 / qn) <= Qfloor (inject_Z e2 / qn).
Proof.
  intros Hn H12. apply Qfloor_resp_le. unfold Qdiv.
  apply Qmult_le_compat_r; [now rewrite <- Zle_Qle|].
  now apply Qlt_le_weak, Qinv_lt_0_compat.
Qed.

(** X4. A Step schedule with numeric parameters, [initial >= 0],
    [interval > 0] and [factor > 0] is monotone over all epochs: its values
    never increase when [factor <= 1] and never decrease when
    [factor >= 1]. *)
Theorem step_monotone (self : StepLearningRateSchedule.t) (qi qn qf : Q) :
  numeric (StepLearningRateSchedule.initial self) = Some qi ->
  numeric (StepLearningRateSchedule.interval self) = Some qn ->
  numeric (StepLearningRateSchedule.factor self) = Some qf ->
  (0 <= qi)%Q -> (0 < qn)%Q -> (0 < qf)%Q ->
  forall e1 e2 : Z, e1 <= e2 ->
    exists v1 v2 : Q,
      evaluates_to (fst (StepLearningRateSchedule.get_learning_rate e1 self)) v1 /\
      evaluates_to (fst (StepLearningRateSchedule.get_learning_rate e2 self)) v2 /\
      ((qf <= 1)%Q -> (v2 <= v1)%Q) /\
      ((1 <= qf)%Q -> (v1 <= v2)%Q).
Proof.
  intros Hi Hn Hf Hi0 Hn0 Hf0 e1 e2 H12.
  assert (Hnz := Qnonzero_of_pos _ Hn0). assert (Hfz := Qnonzero_of_pos _ Hf0).
  assert (Hk := floor_quotient_monotone e1 e2 qn Hn0 H12).
  exists (qi * qf ^ Qfloor (inject_Z e1 / qn))%Q, (qi * qf ^ Qfloor (inject_Z e2 / qn))%Q.
  split; [apply (step_formula self qn Hn qi qf Hi Hf Hnz); now left|].
  split; [apply (step_formula self qn Hn qi qf Hi Hf Hnz); now left|].
  split; intros Hq; rewrite !(Qmult_comm qi);
    apply Qmult_le_compat_r; trivial.
  - now apply Qpower_antitone.
  - now apply Qpower_le_compat_l.
Qed.

Lemma step_monotone_witness :
  exists v1 v2 : Q,
    evaluates_to (fst (StepLearningRateSchedule.get_learning_rate 99 step_example)) v1 /\
    evaluates_to (fst (StepLearningRateSchedule.get_learning_rate 100 step_example)) v2 /\
    ((1 # 2 <= 1)%Q -> (v2 <= v1)%Q) /\
    ((1 <= 1 # 2)%Q -> (v1 <= v2)%Q).
Proof.
  refine (step_monotone step_example (1 # 100) (inject_Z 100) (1 # 2)
            eq_refl eq_refl eq_refl _ eq_refl eq_refl 99 100 _).
  - discriminate.
  - lia.
Defined.

(** ** Parameters that are not numbers *)

(** X5. A Step schedule whose [interval] is not a number and a Warmup
    schedule whose [length] is not a number raise [TypeError] at every
    epoch, and are left unchanged. *)
Theorem non_numeric_parameter_raises (e : Z) :
  (forall self, numeric (StepLearningRateSchedule.interval self) = None ->
     StepLearningRateSchedule.get_learning_rate e self = (Raise TypeError, self)) /\
  (forall self, numeric (WarmupLearningRateSchedule.length self) = None ->
     WarmupLearningRateSchedule.get_learning_rate e self = (Raise TypeError, self)).
Proof.
  split; intros self Hnone.
  - rewrite Step_get_learning_rate_eq.
    destruct (StepLearningRateSchedule.interval self); try discriminate; reflexivity.
  - rewrite Warmup_get_learning_rate_eq.
    destruct (WarmupLearningRateSchedule.length self); try discriminate; reflexivity.
Qed.

Lemma non_numeric_parameter_raises_witness :
  WarmupLearningRateSchedule.get_learning_rate 3
    (WarmupLearningRateSchedule.__init__ (VInt 0) (VInt 1) (VStr "10"))
  = (Raise TypeError,
     WarmupLearningRateSchedule.__init__ (VInt 0) (VInt 1) (VStr "10")).
Proof.
  refine (proj2 (non_numeric_parameter_raises 3)
            (WarmupLearningRateSchedule.__init__ (VInt 0) (VInt 1) (VStr "10"))
            eq_refl).
Defined.

(** ** Warmup over all epochs *)

Lemma ramp_at_zero (qi qw ql : Q) : (qi + (qw - qi) * inject_Z 0 / ql == qi)%Q.
Proof. unfold Qdiv. change (inject_Z 0) with 0%Q. ring. Qed.

Section warmup_anywhere.

Import WarmupLearningRateSchedule.

Variables (self : t) (qi qw ql : Q).
Hypothesis Hinitial : numeric (initial self) = Some qi.
Hypothesis Hwarmed_up : numeric (warmed_up self) = Some qw.
Hypothesis Hlength : numeric (length self) = Some ql.
Hypothesis Hnz : ~ (ql == 0)%Q.

Lemma warmup_ramp_value (e : Z) :
  (inject_Z e <= ql)%Q ->
  evaluates_to (fst (get_learning_rate e self)) (qi + (qw - qi) * inject_Z e / ql).
Proof using Hinitial Hwarmed_up Hlength Hnz.
  intros He. rewrite (warmup_upto self ql Hlength e He). now apply interpolate_value.
Qed.

Lemma warmup_target_value (e : Z) :
  (ql < inject_Z e)%Q -> evaluates_to (fst (get_learning_rate e self)) qw.
Proof using Hwarmed_up Hlength.
  intros He. rewrite (warmup_after self ql Hlength e He). cbn [fst].
  exists (warmed_up self), qw. split; [reflexivity|]. split; [exact Hwarmed_up|].
  reflexivity.
Qed.

Lemma interpolate_is_float (e : Z) :
  exists q : Q, interpolate e self = (Ok (VFloat q), self).
Proof using Hinitial Hwarmed_up Hlength Hnz.
  destruct (interpolate_float_value self ql Hlength qi qw Hinitial Hwarmed_up e Hnz)
    as (q & Hq & _).
  now exists q.
Qed.

End warmup_anywhere.

(** X6. Up to [epoch == length], a Warmup schedule with numeric parameters
    and a [length] that is not zero returns a [float], also when all its
    parameters are [int]s; past [length] it returns the object stored in
    [warmed_up]. *)
Theorem warmup_ramp_is_float (self : WarmupLearningRateSchedule.t) (qi qw ql : Q) (e : Z) :
  numeric (WarmupLearningRateSchedule.initial self) = Some qi ->
  numeric (WarmupLearningRateSchedule.warmed_up self) = Some qw ->
  numeric (WarmupLearningRateSchedule.length self) = Some ql ->
  ~ (ql == 0)%Q ->
  (inject_Z e <= ql)%Q ->
  exists q : Q,
    WarmupLearningRateSchedule.get_learning_rate e self = (Ok (VFloat q), self).
Proof.
  intros Hi Hw Hl Hnz He. rewrite (warmup_upto self ql Hl e He).
  now apply (interpolate_is_float self qi qw ql).
Qed.

Lemma warmup_ramp_is_float_witness :
  exists q : Q,
    WarmupLearningRateSchedule.get_learning_rate 10 warmup_example
    = (Ok (VFloat q), warmup_example).
Proof.
  refine (warmup_ramp_is_float warmup_example 0 1 (inject_Z 10) 10
            eq_refl eq_refl eq_refl _ _); discriminate.
Defined.

(** X7. Up to [length], a Warmup schedule with numeric parameters and
    [length > 0] is monotone, negative epochs included: for
    [e1 <= e2 <= length] the values do not decrease when
    [initial <= warmed_up] and do not increase when [warmed_up <= initial].
    Past [length] any two epochs give the very same result. *)
Theorem warmup_monotone_upto_length
    (self : WarmupLearningRateSchedule.t) (qi qw ql : Q) :
  numeric (WarmupLearningRateSchedule.initial self) = Some qi ->
  numeric (WarmupLearningRateSchedule.warmed_up self) = Some qw ->
  numeric (WarmupLearningRateSchedule.length self) = Some ql ->
  (0 < ql)%Q ->
  (forall e1 e2 : Z, e1 <= e2 -> (inject_Z e2 <= ql)%Q ->
     exists v1 v2 : Q,
       evaluates_to (fst (WarmupLearningRateSchedule.get_learning_rate e1 self)) v1 /\
       evaluates_to (fst (WarmupLearningRateSchedule.get_learning_rate e2 self)) v2 /\
       ((qi <= qw)%Q -> (v1 <= v2)%Q) /\
       ((qw <= qi)%Q -> (v2 <= v1)%Q)) /\
  (forall e1 e2 : Z, (ql < inject_Z e1)%Q -> (ql < inject_Z e2)%Q ->
     WarmupLearningRateSchedule.get_learning_rate e1 self
     = WarmupLearningRateSchedule.get_learning_rate e2 self).
Proof.
  intros Hi Hw Hl Hpos. assert (Hnz := Qnonzero_of_pos _ Hpos). split.
  - intros e1 e2 H12 H2.
    assert (H12q : (inject_Z e1 <= inject_Z e2)%Q) by now rewrite <- Zle_Qle.
    assert (H1 : (inject_Z e1 <= ql)%Q) by now apply (Qle_trans _ (inject_Z e2)).
    exists (qi + (qw - qi) * inject_Z e1 / ql)%Q, (qi + (qw - qi) * inject_Z e2 / ql)%Q.
    split; [now apply warmup_ramp_value|].
    split; [now apply warmup_ramp_value|].
    split; intros Hiw.
    + now apply ramp_increasing.
    + now apply ramp_decreasing.
  - intros e1 e2 H1 H2.
    now rewrite (warmup_after self ql Hl e1 H1), (warmup_after self ql Hl e2 H2).
Qed.

Lemma warmup_monotone_upto_length_witness :
  exists v1 v2 : Q,
    evaluates_to (fst (WarmupLearningRateSchedule.get_learning_rate (-2) warmup_example)) v1 /\
    evaluates_to (fst (WarmupLearningRateSchedule.get_learning_rate 10 warmup_example)) v2 /\
    ((0 <= 1)%Q -> (v1 <= v2)%Q) /\
    ((1 <= 0)%Q -> (v2 <= v1)%Q).
Proof.
  refine (proj1 (warmup_monotone_upto_length warmup_example 0 1 (inject_Z 10)
                   eq_refl eq_refl eq_refl eq_refl) (-2) 10 _ _).
  - lia.
  - discriminate.
Defined.

(** X8. At every epoch [>= 0], the value of a Warmup schedule with numeric
    parameters and [length > 0] is on the [warmed_up] side of [initial]:
    not below [initial] when [initial <= warmed_up], not above it when
    [warmed_up <= initial]. *)
Theorem warmup_not_before_initial
    (self : WarmupLearningRateSchedule.t) (qi qw ql : Q) (e : Z) :
  numeric (WarmupLearningRateSchedule.initial self) = Some qi ->
  numeric (WarmupLearningRateSchedule.warmed_up self) = Some qw ->
  numeric (WarmupLearningRateSchedule.length self) = Some ql ->
  (0 < ql)%Q -> 0 <= e ->
  exists v : Q,
    evaluates_to (fst (WarmupLearningRateSchedule.get_learning_rate e self)) v /\
    ((qi <= qw)%Q -> (qi <= v)%Q) /\
    ((qw <= qi)%Q -> (v <= qi)%Q).
Proof.
  intros Hi Hw Hl Hpos He. assert (Hnz := Qnonzero_of_pos _ Hpos).
  destruct (Qlt_le_dec ql (inject_Z e)) as [Hpast|Hupto].
  - exists qw. split; [now apply (warmup_target_value self qw ql)|].
    split; trivial.
  - exists (qi + (qw - qi) * inject_Z e / ql)%Q.
    split; [now apply warmup_ramp_value|].
    assert (H0e : (inject_Z 0 <= inject_Z e)%Q) by now rewrite <- Zle_Qle.
    split; intros Hiw.
    + eapply Qle_trans;
        [|apply (ramp_increasing qi qw ql (inject_Z 0) (inject_Z e)); trivial].
      rewrite ramp_at_zero. apply Qle_refl.
    + eapply Qle_trans;
        [apply (ramp_decreasing qi qw ql (inject_Z 0) (inject_Z e)); trivial|].
      rewrite ramp_at_zero. apply Qle_refl.
Qed.

Lemma warmup_not_before_initial_witness :
  exists v : Q,
    evaluates_to (fst (WarmupLearningRateSchedule.get_learning_rate 4 warmup_example)) v /\
    ((0 <= 1)%Q -> (0 <= v)%Q) /\
    ((1 <= 0)%Q -> (v <= 0)%Q).
Proof.
  refine (warmup_not_before_initial warmup_example 0 1 (inject_Z 10) 4
            eq_refl eq_refl eq_refl eq_refl _).
  lia.
Defined.

(** * Further properties of the factory *)

Lemma eq_str_true (t : val) (s : string) : Py.eq_str t s = true -> t = VStr s.
Proof.
  destruct t as [| | |s']; try discriminate. simpl.
  intros H. apply String.eqb_eq in H. now subst.
Qed.

(** The list built so far plays no part in what the loop body does with a
    record. *)
Lemma loop_body_acc r schedules :
  loop_body r schedules = (fun built => schedules ++ built) <$> loop_body r [].
Proof.
  unfold loop_body, Py.getitem.
  destruct (r !! "Type") as [t|]; simpl; [|reflexivity].
  destruct (Py.eq_str t "Step").
  { destruct (r !! "Initial"), (r !! "Interval"), (r !! "Factor"); reflexivity. }
  destruct (Py.eq_str t "Warmup").
  { destruct (r !! "Initial"), (r !! "Final"), (r !! "Length"); reflexivity. }
  destruct (Py.eq_str t "Constant"); [|reflexivity].
  destruct (r !! "Value"); reflexivity.
Qed.

Lemma loop_body_inv r schedules schedules' :
  loop_body r schedules = Ok schedules' ->
  exists s, builds r s /\ schedules' = schedules ++ [s].
Proof.
  unfold loop_body, Py.getitem.
  destruct (r !! "Type") as [t|] eqn:Ht; simpl; [|discriminate].
  destruct (Py.eq_str t "Step") eqn:ES.
  { apply eq_str_true in ES as ->.
    destruct (r !! "Initial") eqn:Hi, (r !! "Interval") eqn:Hn,
             (r !! "Factor") eqn:Hf; simpl; try discriminate.
    intros [= <-]. eexists. split; [|reflexivity]. now constructor. }
  destruct (Py.eq_str t "Warmup") eqn:EW.
  { apply eq_str_true in EW as ->.
    destruct (r !! "Initial") eqn:Hi, (r !! "Final") eqn:Hw,
             (r !! "Length") eqn:Hl; simpl; try discriminate.
    intros [= <-]. eexists. split; [|reflexivity]. now constructor. }
  destruct (Py.eq_str t "Constant") eqn:EC; [|discriminate].
  apply eq_str_true in EC as ->.
  destruct (r !! "Value") eqn:Hv; simpl; try discriminate.
  intros [= <-]. eexists. split; [|reflexivity]. now constructor.
Qed.

Lemma loop_inv records : forall schedules schedules',
  loop records schedules = Ok schedules' ->
  exists built, schedules' = schedules ++ built /\ Forall2 builds records built.
Proof.
  induction records as [|r records IH]; intros schedules schedules'; simpl.
  - intros [= <-]. exists []. split; [now rewrite app_nil_r | constructor].
  - destruct (loop_body r schedules) as [schedules1|e] eqn:Hbody; simpl;
      [|discriminate].
    apply loop_body_inv in Hbody as (s & Hs & ->).
    intros Hloop. apply IH in Hloop as (built & -> & Hbuilt).
    exists (s :: built). split; [now rewrite <- app_assoc | now constructor].
Qed.

Lemma loop_acc records : forall schedules,
  loop records schedules = (fun built => schedules ++ built) <$> loop records [].
Proof.
  induction records as [|r records IH]; intros schedules; simpl.
  - now rewrite app_nil_r.
  - rewrite (loop_body_acc r schedules).
    destruct (loop_body r []) as [one|e]; simpl; [|reflexivity].
    rewrite (IH (schedules ++ one)), (IH one).
    destruct (loop records []) as [built|e]; simpl; [|reflexivity].
    now rewrite app_assoc.
Qed.

Lemma loop_app records1 records2 : forall schedules,
  loop (records1 ++ records2) schedules
  = loop records1 schedules ≫= loop records2.
Proof.
  induction records1 as [|r records1 IH]; intros schedules; simpl.
  - reflexivity.
  - destruct (loop_body r schedules) as [schedules1|e]; simpl; [apply IH | reflexivity].
Qed.

Lemma builds_concrete r s : builds r s -> forall b, s <> Base b.
Proof. intros H b. destruct H; discriminate. Qed.

(** X9. [get_learning_rate_schedules] returns a list only when every
    record is valid: the list then has one schedule for each record, in
    order, each built from its record, and none of them is an instance of
    the base class. *)
Theorem factory_returns_only_for_valid
    (specs : gmap string (list (gmap string val))) (schedules : list Schedule) :
  get_learning_rate_schedules specs = Ok schedules ->
  exists records,
    specs !! "LearningRateSchedule" = Some records /\
    Forall valid records /\
    Forall2 builds records schedules /\
    length schedules = length records /\
    (forall s b, s ∈ schedules -> s <> Base b).
Proof.
  unfold get_learning_rate_schedules, Py.getitem.
  destruct (specs !! "LearningRateSchedule") as [records|]; simpl; [|discriminate].
  intros Hloop. apply loop_inv in Hloop as (built & -> & Hbuilt). simpl.
  exists records. split; [reflexivity|].
  split; [|split; [exact Hbuilt|split]].
  - clear -Hbuilt. induction Hbuilt; constructor; trivial.
    eexists. eassumption.
  - symmetry. eapply Forall2_length. eassumption.
  - intros s b Hs.
    apply list_elem_of_lookup in Hs as [i Hi].
    destruct (Forall2_lookup_r _ _ _ _ _ Hbuilt Hi) as (r & _ & Hr).
    now apply (builds_concrete r).
Qed.

Lemma factory_returns_only_for_valid_witness :
  exists records,
    example_specs !! "LearningRateSchedule" = Some records /\
    Forall valid records /\
    Forall2 builds records
      [Constant (ConstantLearningRateSchedule.__init__ (VFloat (1 # 1000)));
       Step step_example] /\
    length [Constant (ConstantLearningRateSchedule.__init__ (VFloat (1 # 1000)));
            Step step_example] = length records /\
    (forall s b,
       s ∈ [Constant (ConstantLearningRateSchedule.__init__ (VFloat (1 # 1000)));
            Step step_example] -> s <> Base b).
Proof.
  refine (factory_returns_only_for_valid example_specs _ eq_refl).
Defined.

Lemma loop_body_missing_type r schedules :
  r !! "Type" = None -> loop_body r schedules = Raise (KeyError "Type").
Proof. intros Ht. unfold loop_body, Py.getitem. now rewrite Ht. Qed.

Lemma loop_body_missing_parameter r (type k : string) schedules :
  r !! "Type" = Some (VStr type) ->
  first_missing r (parameter_keys type) = Some k ->
  loop_body r schedules = Raise (KeyError k).
Proof.
  intros Ht. unfold loop_body, Py.getitem, first_missing, parameter_keys.
  rewrite Ht. simpl.
  destruct (String.eqb type "Step").
  { simpl. repeat case_bool_decide; intros; simplify_eq;
      repeat match goal with
             | H : ?x = None |- _ => rewrite H
             | H : ?x <> None |- context [?x] => destruct x; [|congruence]
             end; reflexivity. }
  destruct (String.eqb type "Warmup").
  { simpl. repeat case_bool_decide; intros; simplify_eq;
      repeat match goal with
             | H : ?x = None |- _ => rewrite H
             | H : ?x <> None |- context [?x] => destruct x; [|congruence]
             end; reflexivity. }
  destruct (String.eqb type "Constant"); [|discriminate].
  simpl. repeat case_bool_decide; intros; simplify_eq.
  match goal with H : _ = None |- _ => now rewrite H end.
Qed.

Lemma loop_first_failure pre r post e :
  Forall valid pre -> loop_body r [] = Raise e ->
  loop (pre ++ r :: post) [] = Raise e.
Proof.
  intros Hpre Hr. rewrite loop_app.
  destruct (loop_valid pre [] Hpre) as (built & -> & _). simpl.
  now rewrite (loop_body_acc r built), Hr.
Qed.

Lemma factory_lookup specs records :
  specs !! "LearningRateSchedule" = Some records ->
  get_learning_rate_schedules specs = loop records [].
Proof.
  intros H. unfold get_learning_rate_schedules, Py.getitem. now rewrite H.
Qed.

(** X10. The first record that is not valid decides how
    [get_learning_rate_schedules] fails: after any valid records and before
    any records at all, it raises what it raises for a list holding that
    record alone. *)
Theorem first_invalid_record_decides
    (specs specs1 : gmap string (list (gmap string val))) pre r post e :
  specs !! "LearningRateSchedule" = Some (pre ++ r :: post) ->
  specs1 !! "LearningRateSchedule" = Some [r] ->
  Forall valid pre ->
  get_learning_rate_schedules specs1 = Raise e ->
  get_learning_rate_schedules specs = Raise e.
Proof.
  intros Hspecs Hspecs1 Hpre.
  rewrite (factory_lookup _ _ Hspecs), (factory_lookup _ _ Hspecs1). simpl.
  destruct (loop_body r []) as [one|e'] eqn:Hr; simpl; [discriminate|].
  intros [= ->]. now apply loop_first_failure.
Qed.

Lemma first_invalid_record_decides_witness :
  get_learning_rate_schedules bogus_specs
  = Raise (Exception no_known_schedule (VStr "Bogus")).
Proof.
  refine (first_invalid_record_decides bogus_specs
            (<["LearningRateSchedule" := [bogus_record]]> ∅)
            [constant_record] bogus_record [step_record] _
            eq_refl eq_refl _ eq_refl).
  exact (Forall_cons_2 _ _ _ constant_record_valid (Forall_nil_2 _)).
Defined.

(** X11. A missing key is reported by name.  Without
    ["LearningRateSchedule"] in [specs] the factory raises the [KeyError] of
    that key.  After valid records, a record without ["Type"] raises
    [KeyError("Type")], and a record of a known type that lacks parameters
    raises the [KeyError] of the first one it lacks, in the order
    Initial, Interval, Factor for Step, Initial, Final, Length for Warmup,
    and Value for Constant. *)
Theorem missing_key_is_named (specs : gmap string (list (gmap string val))) :
  (specs !! "LearningRateSchedule" = None ->
   get_learning_rate_schedules specs = Raise (KeyError "LearningRateSchedule")) /\
  (forall pre r post,
     specs !! "LearningRateSchedule" = Some (pre ++ r :: post) ->
     Forall valid pre -> r !! "Type" = None ->
     get_learning_rate_schedules specs = Raise (KeyError "Type")) /\
  (forall pre r post (type k : string),
     specs !! "LearningRateSchedule" = Some (pre ++ r :: post) ->
     Forall valid pre -> r !! "Type" = Some (VStr type) ->
     first_missing r (parameter_keys type) = Some k ->
     get_learning_rate_schedules specs = Raise (KeyError k)).
Proof.
  split; [|split].
  - intros H. unfold get_learning_rate_schedules, Py.getitem. now rewrite H.
  - intros pre r post Hspecs Hpre Ht. rewrite (factory_lookup _ _ Hspecs).
    apply loop_first_failure; trivial. now apply loop_body_missing_type.
  - intros pre r post type k Hspecs Hpre Ht Hk. rewrite (factory_lookup _ _ Hspecs).
    apply loop_first_failure; trivial. now apply (loop_body_missing_parameter r type).
Qed.

(** A Step record with ["Initial"] and nothing else, after the Constant
    record of the example. *)
Lemma missing_key_is_named_witness :
  get_learning_rate_schedules
    (<["LearningRateSchedule" :=
         [constant_record;
          <["Type" := VStr "Step"]> (<["Initial" := VInt 1]> ∅)]]> ∅)
  = Raise (KeyError "Interval").
Proof.
  refine (proj2 (proj2 (missing_key_is_named
            (<["LearningRateSchedule" :=
                 [constant_record;
                  <["Type" := VStr "Step"]> (<["Initial" := VInt 1]> ∅)]]> ∅)))
            [constant_record]
            (<["Type" := VStr "Step"]> (<["Initial" := VInt 1]> ∅)) [] "Step"
            "Interval" eq_refl _ eq_refl eq_refl).
  exact (Forall_cons_2 _ _ _ constant_record_valid (Forall_nil_2 _)).
Defined.

(** X12. Building from two lists of records put end to end: when the first
    list builds, the result is its schedules followed by what the second
    list gives, schedules or exception; when the first list raises, the
    whole raises the same. *)
Theorem factory_of_concatenation
    (specs specs1 specs2 : gmap string (list (gmap string val))) records1 records2 :
  specs1 !! "LearningRateSchedule" = Some records1 ->
  specs2 !! "LearningRateSchedule" = Some records2 ->
  specs !! "LearningRateSchedule" = Some (records1 ++ records2) ->
  (forall schedules1, get_learning_rate_schedules specs1 = Ok schedules1 ->
     get_learning_rate_schedules specs
     = (fun schedules2 => schedules1 ++ schedules2)
         <$> get_learning_rate_schedules specs2) /\
  (forall e, get_learning_rate_schedules specs1 = Raise e ->
     get_learning_rate_schedules specs = Raise e).
Proof.
  intros H1 H2 H.
  rewrite (factory_lookup _ _ H1), (factory_lookup _ _ H2), (factory_lookup _ _ H).
  rewrite loop_app. split.
  - intros schedules1 ->. simpl. apply loop_acc.
  - now intros e ->.
Qed.

Lemma factory_of_concatenation_witness :
  get_learning_rate_schedules example_specs
  = (fun schedules2 =>
       [Constant (ConstantLearningRateSchedule.__init__ (VFloat (1 # 1000)))]
       ++ schedules2)
      <$> get_learning_rate_schedules (<["LearningRateSchedule" := [step_record]]> ∅).
Proof.
  refine (proj1 (factory_of_concatenation example_specs
                   (<["LearningRateSchedule" := [constant_record]]> ∅)
                   (<["LearningRateSchedule" := [step_record]]> ∅)
                   [constant_record] [step_record] eq_refl eq_refl eq_refl)
            _ eq_refl).
Defined.

(** * Other helpers of the module *)

(** ** [get_spec_with_default] *)

(** X13. [get_spec_with_default] never raises: it returns the value stored
    under [key] when there is one, whatever that value is, and [default]
    only when the key is missing.  So it returns what was last stored under
    the key, and the default once the key is deleted. *)
Theorem get_spec_with_default_spec {A : Type}
    (specs : gmap string A) (key : string) (d : A) :
  (forall v, specs !! key = Some v -> get_spec_with_default specs key d = Ok v) /\
  (specs !! key = None -> get_spec_with_default specs key d = Ok d) /\
  (forall e, get_spec_with_default specs key d <> Raise e) /\
  (forall v, get_spec_with_default (<[key := v]> specs) key d = Ok v) /\
  get_spec_with_default (delete key specs) key d = Ok d /\
  (forall key' v, key' <> key ->
     get_spec_with_default (<[key' := v]> specs) key d
     = get_spec_with_default specs key d).
Proof.
  unfold get_spec_with_default, Py.getitem. repeat split.
  - now intros v ->.
  - now intros ->.
  - intros e. destruct (specs !! key); discriminate.
  - intros v. now rewrite lookup_insert_eq.
  - now rewrite lookup_delete_eq.
  - intros key' v Hne. now rewrite lookup_insert_ne.
Qed.

Lemma get_spec_with_default_spec_witness :
  get_spec_with_default (<["NumEpochs" := VNone]> ∅) "NumEpochs" (VInt 100)
  = Ok VNone.
Proof.
  refine (proj1 (get_spec_with_default_spec
                   (<["NumEpochs" := VNone]> ∅) "NumEpochs" (VInt 100))
            VNone eq_refl).
Defined.

(** ** [clip_logs] *)

Lemma lr_log_not_a_module_name : "lr_log" ∉ module_names.
Proof. apply (bool_decide_unpack _). vm_compute. exact I. Qed.

(** X14. [clip_logs] cannot run as the module stands: as long as the only
    global names bound are those the module binds itself, every call raises
    [NameError] for [lr_log], whatever its arguments.  With [lr_log] bound
    to an empty list, every call raises [ZeroDivisionError]. *)
Theorem clip_logs_raises {A B : Type}
    (globals : gmap string (list B)) (loss_log : list A) (epoch : Z) :
  ((forall name, is_Some (globals !! name) -> name ∈ module_names) ->
   clip_logs globals loss_log epoch = inl (NameError "lr_log")) /\
  (globals !! "lr_log" = Some [] ->
   clip_logs globals loss_log epoch = inl (Builtin ZeroDivisionError)).
Proof.
  unfold clip_logs. split.
  - intros Hnames. destruct (globals !! "lr_log") as [lr_log|] eqn:E; trivial.
    destruct lr_log_not_a_module_name. apply Hnames. now rewrite E.
  - now intros ->.
Qed.

Lemma clip_logs_raises_witness :
  clip_logs (∅ : gmap string (list Q)) [VInt 1; VInt 2; VInt 3] 1
  = inl (NameError "lr_log").
Proof.
  refine (proj1 (clip_logs_raises ∅ [VInt 1; VInt 2; VInt 3] 1) _).
  intros name [l Hl]. rewrite lookup_empty in Hl. discriminate.
Defined.

Lemma slice_to_prefix {A : Type} (l : list A) (stop : Z) : slice_to l stop `prefix_of` l.
Proof.
  unfold slice_to. destruct (stop <? 0).
  - eexists. symmetry. apply take_drop.
  - eexists. symmetry. apply take_drop.
Qed.

Lemma slice_to_length {A : Type} (l : list A) (stop : Z) :
  Z.of_nat (length (slice_to l stop))
  = if stop <? 0 then Z.max 0 (Z.of_nat (length l) + stop)
    else Z.min stop (Z.of_nat (length l)).
Proof.
  unfold slice_to. destruct (Z.ltb_spec stop 0); rewrite length_take; lia.
Qed.

(** X15. With [lr_log] bound to a list that is not empty, [clip_logs]
    returns a prefix of [loss_log].  Writing [iters] for
    [len(loss_log) // len(lr_log)]: for [0 <= epoch <= len(lr_log)] the
    prefix has [iters * epoch] entries; for a larger epoch it is cut at the
    length of [loss_log]; for a negative epoch [iters * -epoch] entries are
    dropped from the end instead. *)
Theorem clip_logs_prefix {A B : Type}
    (globals : gmap string (list B)) (lr_log : list B) (loss_log : list A) (epoch : Z) :
  globals !! "lr_log" = Some lr_log ->
  lr_log <> [] ->
  let iters := Z.of_nat (length loss_log) / Z.of_nat (length lr_log) in
  exists clipped,
    clip_logs globals loss_log epoch = inr clipped /\
    clipped `prefix_of` loss_log /\
    (0 <= epoch <= Z.of_nat (length lr_log) ->
     Z.of_nat (length clipped) = iters * epoch) /\
    (0 <= epoch ->
     Z.of_nat (length clipped) = Z.min (iters * epoch) (Z.of_nat (length loss_log))) /\
    (epoch < 0 -> 0 < iters ->
     Z.of_nat (length clipped)
     = Z.max 0 (Z.of_nat (length loss_log) - iters * - epoch)) /\
    (iters = 0 -> clipped = []).
Proof.
  intros Hlr Hne iters. unfold clip_logs. rewrite Hlr.
  assert (Hlen : 0 < Z.of_nat (length lr_log)) by (destruct lr_log; simpl; [congruence|lia]).
  destruct (Z.eqb_spec (Z.of_nat (length lr_log)) 0) as [H0|_]; [lia|].
  fold iters. eexists. split; [reflexivity|]. split; [apply slice_to_prefix|].
  assert (Hiters : 0 <= iters) by (apply Z.div_pos; lia).
  assert (Hfit : iters * Z.of_nat (length lr_log) <= Z.of_nat (length loss_log)).
  { unfold iters. rewrite Z.mul_comm. apply Z.mul_div_le. lia. }
  assert (Hnil : iters = 0 -> slice_to loss_log (iters * epoch) = [])
    by (intros ->; reflexivity).
  rewrite slice_to_length. clearbody iters. repeat split; trivial.
  - intros [He0 He].
    assert (0 <= iters * epoch) by now apply Z.mul_nonneg_nonneg.
    assert (iters * epoch <= iters * Z.of_nat (length lr_log))
      by now apply Z.mul_le_mono_nonneg_l.
    destruct (Z.ltb_spec (iters * epoch) 0); lia.
  - intros He0.
    assert (0 <= iters * epoch) by now apply Z.mul_nonneg_nonneg.
    destruct (Z.ltb_spec (iters * epoch) 0); lia.
  - intros He Hpos. rewrite Z.mul_opp_r.
    assert (iters * epoch < 0) by (apply Z.mul_pos_neg; lia).
    destruct (Z.ltb_spec (iters * epoch) 0); lia.
Qed.

Lemma clip_logs_prefix_witness :
  exists clipped,
    clip_logs (<["lr_log" := [1%Q; 2%Q]]> ∅)
      [VInt 1; VInt 2; VInt 3; VInt 4; VInt 5] 1 = inr clipped /\
    clipped `prefix_of` [VInt 1; VInt 2; VInt 3; VInt 4; VInt 5] /\
    (0 <= 1 <= 2 -> Z.of_nat (length clipped) = 5 / 2 * 1) /\
    (0 <= 1 -> Z.of_nat (length clipped) = Z.min (5 / 2 * 1) 5) /\
    (1 < 0 -> 0 < 5 / 2 -> Z.of_nat (length clipped) = Z.max 0 (5 - 5 / 2 * - 1)) /\
    (5 / 2 = 0 -> clipped = []).
Proof.
  refine (clip_logs_prefix (<["lr_log" := [1%Q; 2%Q]]> ∅) [1%Q; 2%Q]
            [VInt 1; VInt 2; VInt 3; VInt 4; VInt 5] 1 eq_refl _).
  discriminate.
Defined.

(** ** [append_parameter_magnitudes] *)

Lemma substring_0_0 (s : string) : String.substring 0 0 s = EmptyString.
Proof. now destruct s. Qed.

Lemma substring_0_length (s : string) : String.substring 0 (String.length s) s = s.
Proof. induction s as [|c s IH]; simpl; [reflexivity | now rewrite IH]. Qed.

Lemma strip_module_prefixed (rest : string) :
  rest <> EmptyString -> strip_module ("module." ++ rest) = rest.
Proof.
  intros Hne. unfold strip_module. simpl.
  rewrite substring_0_0, Nat.sub_0_r, substring_0_length.
  destruct rest; [congruence | reflexivity].
Qed.

Lemma strip_module_changes (name : string) :
  strip_module name <> name ->
  exists rest, rest <> EmptyString /\ name = ("module." ++ rest)%string.
Proof.
  unfold strip_module.
  destruct (Nat.ltb 7 (String.length name)
            && String.eqb (String.substring 0 7 name) "module.") eqn:E;
    [|congruence].
  intros _. apply andb_prop in E as [Hlen Heq].
  apply Nat.ltb_lt in Hlen. apply String.eqb_eq in Heq.
  do 7 (destruct name as [|? name]; [simpl in Hlen; lia|]).
  simpl in Heq. injection Heq as -> -> -> -> -> -> -> _.
  exists name. split; [|reflexivity].
  destruct name; [simpl in Hlen; lia | discriminate].
Qed.

(** X16. The renaming of [append_parameter_magnitudes] removes one leading
    ["module."] and only when something follows it: ["module." + rest]
    becomes [rest] for a [rest] that is not empty, and any name that is
    changed had that form. *)
Theorem strip_module_spec (name : string) :
  (forall rest, rest <> EmptyString -> name = ("module." ++ rest)%string ->
     strip_module name = rest) /\
  ((forall rest, rest <> EmptyString -> name <> ("module." ++ rest)%string) ->
   strip_module name = name).
Proof.
  split.
  - intros rest Hne ->. now apply strip_module_prefixed.
  - intros Hno. destruct (decide (strip_module name = name)) as [|Hch]; trivial.
    apply strip_module_changes in Hch as (rest & Hne & ->).
    now destruct (Hno rest Hne).
Qed.

Lemma strip_module_spec_witness :
  strip_module "module.module.lin0.weight" = "module.lin0.weight".
Proof.
  refine (proj1 (strip_module_spec "module.module.lin0.weight")
            "module.lin0.weight" _ eq_refl).
  discriminate.
Defined.

Lemma record_magnitude_ok {A : Type}
    (param_mag_log : gmap string (list A)) (name : string) (magnitude : A) :
  record_magnitude param_mag_log name magnitude
  = Ok (<[strip_module name :=
            default [] (param_mag_log !! strip_module name) ++ [magnitude]]>
          param_mag_log).
Proof.
  unfold record_magnitude, Py.getitem.
  destruct (param_mag_log !! strip_module name) as [l|] eqn:E; simpl.
  - now rewrite E.
  - rewrite lookup_insert_eq. simpl. now rewrite insert_insert_eq.
Qed.

Lemma magnitudes_for_cons {A : Type} (k name : string) (magnitude : A) rest :
  magnitudes_for k ((name, magnitude) :: rest)
  = if decide (strip_module name = k) then magnitude :: magnitudes_for k rest
    else magnitudes_for k rest.
Proof.
  unfold magnitudes_for. rewrite filter_cons. simpl.
  destruct (decide (strip_module name = k)); reflexivity.
Qed.

Lemma append_parameter_magnitudes_ok {A : Type} (named_parameters : list (string * A)) :
  forall param_mag_log : gmap string (list A),
  exists param_mag_log',
    append_parameter_magnitudes param_mag_log named_parameters = Ok param_mag_log' /\
    forall k,
      param_mag_log' !! k
      = match magnitudes_for k named_parameters with
        | [] => param_mag_log !! k
        | new => Some (default [] (param_mag_log !! k) ++ new)
        end.
Proof.
  induction named_parameters as [|[name magnitude] rest IH]; intros param_mag_log.
  - exists param_mag_log. split; reflexivity.
  - simpl. rewrite record_magnitude_ok. simpl.
    destruct (IH (<[strip_module name :=
                      default [] (param_mag_log !! strip_module name) ++ [magnitude]]>
                    param_mag_log)) as (log' & -> & Hlog').
    exists log'. split; [reflexivity|]. intros k.
    rewrite Hlog', magnitudes_for_cons.
    destruct (decide (strip_module name = k)) as [<-|Hne].
    + rewrite lookup_insert_eq. simpl.
      destruct (magnitudes_for (strip_module name) rest); [reflexivity|].
      now rewrite <- app_assoc.
    + now rewrite lookup_insert_ne.
Qed.

(** X17. [append_parameter_magnitudes] never raises, and changes the log
    in just this way: under each key it appends the norms of the parameters
    whose renamed name is that key, in the order of the parameters, starting
    from an empty list when the key is new; a key that no parameter is
    renamed to is left as it was. *)
Theorem append_parameter_magnitudes_spec {A : Type}
    (param_mag_log : gmap string (list A)) (named_parameters : list (string * A)) :
  exists param_mag_log',
    append_parameter_magnitudes param_mag_log named_parameters = Ok param_mag_log' /\
    forall k,
      param_mag_log' !! k
      = match magnitudes_for k named_parameters with
        | [] => param_mag_log !! k
        | new => Some (default [] (param_mag_log !! k) ++ new)
        end.
Proof. apply append_parameter_magnitudes_ok. Qed.

(** X18. After [append_parameter_magnitudes], every list that was in the
    log is a prefix of the list now under its key; the norm of every
    parameter is in the list under its renamed name; and a key that was
    absent and that no parameter is renamed to is still absent. *)
Theorem append_parameter_magnitudes_grows {A : Type}
    (param_mag_log param_mag_log' : gmap string (list A))
    (named_parameters : list (string * A)) :
  append_parameter_magnitudes param_mag_log named_parameters = Ok param_mag_log' ->
  (forall k l, param_mag_log !! k = Some l ->
     exists new, param_mag_log' !! k = Some (l ++ new)) /\
  (forall name magnitude, (name, magnitude) ∈ named_parameters ->
     exists l, param_mag_log' !! strip_module name = Some l /\ magnitude ∈ l) /\
  (forall k, param_mag_log !! k = None ->
     (forall name magnitude, (name, magnitude) ∈ named_parameters ->
        strip_module name <> k) ->
     param_mag_log' !! k = None).
Proof.
  intros Hrun.
  destruct (append_parameter_magnitudes_ok named_parameters param_mag_log)
    as (log' & Hrun' & Hlog').
  rewrite Hrun in Hrun'. injection Hrun' as <-. repeat split.
  - intros k l Hl. rewrite Hlog', Hl. simpl.
    destruct (magnitudes_for k named_parameters) as [|m new].
    + exists []. now rewrite app_nil_r.
    + now exists (m :: new).
  - intros name magnitude Hin.
    assert (Hmem : magnitude ∈ magnitudes_for (strip_module name) named_parameters).
    { unfold magnitudes_for. apply list_elem_of_fmap.
      exists (name, magnitude). split; [reflexivity|].
      apply list_elem_of_filter. now split. }
    rewrite Hlog'.
    destruct (magnitudes_for (strip_module name) named_parameters) as [|m new] eqn:E.
    + now apply elem_of_nil in Hmem.
    + eexists. split; [reflexivity|]. apply elem_of_app. now right.
  - intros k Hk Hnone. rewrite Hlog'.
    destruct (magnitudes_for k named_parameters) as [|m new] eqn:E; trivial.
    exfalso.
    assert (Hmem : m ∈ magnitudes_for k named_parameters) by (rewrite E; left).
    unfold magnitudes_for in Hmem.
    apply list_elem_of_fmap in Hmem as ([name m'] & _ & Hin).
    apply list_elem_of_filter in Hin as [Hname Hin].
    now apply (Hnone name m').
Qed.

Lemma append_parameter_magnitudes_grows_witness :
  exists l,
    (<["a" := [1%Q; 2%Q]]> ∅ : gmap string (list Q)) !! strip_module "a" = Some l /\
    2%Q ∈ l.
Proof.
  refine (proj1 (proj2 (append_parameter_magnitudes_grows ∅
                          (<["a" := [1%Q; 2%Q]]> ∅)
                          [("module.a", 1%Q); ("a", 2%Q)] eq_refl))
            "a" 2%Q _).
  apply list_elem_of_further, list_elem_of_here.
Defined.

(** X19. Logging the parameters of one model and then those of another is
    logging the parameters of both in that order at once. *)
Theorem append_parameter_magnitudes_app {A : Type}
    (param_mag_log : gmap string (list A)) (parameters1 parameters2 : list (string * A)) :
  append_parameter_magnitudes param_mag_log (parameters1 ++ parameters2)
  = append_parameter_magnitudes param_mag_log parameters1
      ≫= fun param_mag_log' => append_parameter_magnitudes param_mag_log' parameters2.
Proof.
  revert param_mag_log.
  induction parameters1 as [|[name magnitude] parameters1 IH]; intros param_mag_log.
  - reflexivity.
  - simpl. rewrite record_magnitude_ok. simpl. apply IH.
Qed.
